(** * Terminal portfolio: command dispatch and incremental rendering

    A shallow embedding of [client/src/lib/formatting.ts],
    [client/src/lib/commands.ts] and [client/src/components/Terminal.tsx],
    of the [TerminalOutput] component that draws one line, and, from
    the first, string-based version of the program, of the colour tags
    of its formatting module and of its [renderOutputLine].

    JavaScript strings are sequences of UTF-16 code units, the object
    literal [commands] is a finite map from names to handlers, React
    state is threaded explicitly, and the character-by-character
    renderer is the list of the transcripts it hands to [setLines]. *)

From Stdlib Require Import NArith ZArith Bool String Ascii DecimalString DecimalPos DecimalN Lia.
From stdpp Require Import base list gmap.

Local Open Scope N_scope.

(** ** JavaScript strings *)

(** A string is the list of its UTF-16 code units: [s.length] is [length],
    [s[i]] is [s !! i], [+] is [++]. *)
Abbreviation jsstring := (list N).

(** One code point as UTF-16: itself inside the Basic Multilingual Plane,
    a surrogate pair above it. *)
Definition utf16 (cp : N) : jsstring :=
  if cp <? 0x10000 then [cp]
  else [0xD800 + (cp - 0x10000) / 0x400; 0xDC00 + (cp - 0x10000) mod 0x400].

(** The code points of a UTF-8 byte sequence (source files are UTF-8). *)
Fixpoint utf8 (bytes : list N) : list N :=
  match bytes with
  | [] => []
  | b0 :: rest =>
      if b0 <? 0x80 then b0 :: utf8 rest
      else if b0 <? 0xE0 then
        match rest with
        | b1 :: rest1 => (b0 mod 0x20 * 0x40 + b1 mod 0x40) :: utf8 rest1
        | _ => []
        end
      else if b0 <? 0xF0 then
        match rest with
        | b1 :: b2 :: rest2 =>
            (b0 mod 0x10 * 0x1000 + b1 mod 0x40 * 0x40 + b2 mod 0x40) :: utf8 rest2
        | _ => []
        end
      else
        match rest with
        | b1 :: b2 :: b3 :: rest3 =>
            (b0 mod 0x08 * 0x40000 + b1 mod 0x40 * 0x1000
             + b2 mod 0x40 * 0x40 + b3 mod 0x40) :: utf8 rest3
        | _ => []
        end
  end.

(** The escape [\n] of a source literal is one line feed. *)
Fixpoint unescape (bytes : list N) : list N :=
  match bytes with
  | 0x5C :: 0x6E :: rest => 0x0A :: unescape rest
  | b :: rest => b :: unescape rest
  | [] => []
  end.

(** A string literal of the source, as the engine stores it. *)
Definition js (literal : string) : jsstring :=
  flat_map utf16
    (utf8 (unescape
       (map (fun a => N.of_nat (nat_of_ascii a)) (list_ascii_of_string literal)))).

(** [String(n)] for a non-negative integer below 2^53, which JavaScript
    holds exactly and prints in full decimal, as here. (Beyond, a number
    is rounded, and from 10^21 on printed with an exponent; the clock
    readings and counters of the program stay far below.) *)
Definition numberToString (n : N) : jsstring :=
  js (NilEmpty.string_of_uint (N.to_uint n)).

(** White space and line terminators, as [String.prototype.trim] strips them. *)
Definition isWhiteSpace (u : N) : bool :=
  (9 <=? u) && (u <=? 13) || (u =? 0x20) || (u =? 0xA0) || (u =? 0x1680)
  || (0x2000 <=? u) && (u <=? 0x200A) || (u =? 0x2028) || (u =? 0x2029)
  || (u =? 0x202F) || (u =? 0x205F) || (u =? 0x3000) || (u =? 0xFEFF).

Fixpoint trimStart (s : jsstring) : jsstring :=
  match s with
  | u :: rest => if isWhiteSpace u then trimStart rest else s
  | [] => []
  end.

Definition trimEnd (s : jsstring) : jsstring := rev (trimStart (rev s)).

Definition trim (s : jsstring) : jsstring := trimEnd (trimStart s).

Fixpoint startsWith (s prefix : jsstring) {struct prefix} : bool :=
  match prefix, s with
  | [], _ => true
  | p :: prefix', u :: s' => (u =? p) && startsWith s' prefix'
  | _ :: _, [] => false
  end.

(** [s.includes(needle)] *)
Fixpoint includes (s needle : jsstring) : bool :=
  startsWith s needle
  || match s with
     | _ :: s' => includes s' needle
     | [] => false
     end.

(** [pieces.join(sep)] *)
Fixpoint join (sep : jsstring) (pieces : list jsstring) : jsstring :=
  match pieces with
  | [] => []
  | [p] => p
  | p :: rest => p ++ sep ++ join sep rest
  end.

(** [s.padEnd(n)]: spaces up to length [n]. *)
Definition padEnd (s : jsstring) (n : nat) : jsstring :=
  s ++ replicate (n - length s)%nat 0x20.

(** [const [first, ...rest] = s.split(' ')]: [split] cuts at every single
    space and always yields at least one piece, so the destructuring
    names the first piece and the list of the others. *)
Fixpoint splitSpace (s : jsstring) : jsstring * list jsstring :=
  match s with
  | [] => ([], [])
  | u :: s' =>
      let (piece, pieces) := splitSpace s' in
      if u =? 0x20 then ([], piece :: pieces) else (u :: piece, pieces)
  end.

(** Surrogate halves, and strings made of whole code points only. *)
Definition isHighSurrogate (u : N) : bool := (0xD800 <=? u) && (u <=? 0xDBFF).
Definition isLowSurrogate (u : N) : bool := (0xDC00 <=? u) && (u <=? 0xDFFF).

Fixpoint wholeCodePoints (s : jsstring) : bool :=
  match s with
  | [] => true
  | u :: rest =>
      if isHighSurrogate u then
        match rest with
        | v :: rest' => isLowSurrogate v && wholeCodePoints rest'
        | [] => false
        end
      else negb (isLowSurrogate u) && wholeCodePoints rest
  end.

(** ** Effects

    A thrown value is an [Error] with its [message] or anything else
    ([error instanceof Error]). An effectful computation threads a state
    and completes normally or by a throw; [await] on it is [bind]. *)

Inductive Thrown :=
| ErrorObject (message : jsstring)
| NotAnError.

Inductive Completion (A : Type) :=
| Normal (value : A)
| Throw (thrown : Thrown).
Arguments Normal {A} value.
Arguments Throw {A} thrown.

Definition Eff (S A : Type) : Type := S -> Completion A * S.

Definition ret {S A} (a : A) : Eff S A := fun s => (Normal a, s).

Definition throw {S A} (e : Thrown) : Eff S A := fun s => (Throw e, s).

Definition bind {S A B} (c : Eff S A) (k : A -> Eff S B) : Eff S B :=
  fun s =>
    match c s with
    | (Normal a, s') => k a s'
    | (Throw e, s') => (Throw e, s')
    end.

(** [try { body } catch (error) { handler }] *)
Definition tryCatch {S A} (body : Eff S A) (handler : Thrown -> Eff S A) : Eff S A :=
  fun s =>
    match body s with
    | (Normal a, s') => (Normal a, s')
    | (Throw e, s') => handler e s'
    end.

(** [try { body } finally { cleanup }] *)
Definition tryFinally {S A} (body : Eff S A) (cleanup : Eff S unit) : Eff S A :=
  fun s =>
    match body s with
    | (outcome, s') =>
        match cleanup s' with
        | (Normal _, s'') => (outcome, s'')
        | (Throw e, s'') => (Throw e, s'')
        end
    end.

Definition get {S} : Eff S S := fun s => (Normal s, s).

Definition modify {S} (f : S -> S) : Eff S unit := fun s => (Normal tt, f s).

#[global] Instance Eff_ret {S} : MRet (Eff S) := @ret S.
#[global] Instance Eff_bind {S} : MBind (Eff S) := fun A B k c => bind c k.

(** ** The host

    What the JavaScript engine supplies and the repository does not
    contain: the Unicode case mappings behind [toLowerCase] and
    [toUpperCase], and the members every object literal inherits from
    [Object.prototype]. The [in] operator finds those members too, and a
    call through one completes as the engine decides: with a throw, with
    [undefined], or with some other value that has no [content] and no
    [error] field. *)

Inductive Foreign := Undefined | Fieldless.

Class Host := {
  toLowerCase : jsstring -> jsstring;
  toUpperCase : jsstring -> jsstring;
  objectPrototype : jsstring -> option (list jsstring -> Completion Foreign);
}.

(** [Math.random] is consulted only as [Math.floor(Math.random() * n)],
    an integer below [n]: the state is the sequence of draws still to
    come, each reduced to the range asked for. *)
Definition Random : Type := nat -> N.

Definition randomBelow (n : N) : Eff Random N :=
  fun rng => (Normal (rng 0%nat mod n), fun k => rng (S k)).

(** ** formatting.ts *)

Module Color.
Inductive TerminalColor :=
| primary | secondary | accent | warning | error | muted | default.
End Color.
Export Color(TerminalColor).

Record TextSegment := {
  text : jsstring;
  color : option TerminalColor;
  bold : option bool;
  url : option jsstring;
}.

Abbreviation FormattedOutput := (list TextSegment).

#[global] Instance TerminalColor_eq_dec : EqDecision TerminalColor.
Proof. solve_decision. Defined.
#[global] Instance TextSegment_eq_dec : EqDecision TextSegment.
Proof. solve_decision. Defined.

Module text.
Definition primary (str : jsstring) (bold : bool) : TextSegment :=
  {| text := str; color := Some Color.primary; bold := Some bold; url := None |}.
Definition secondary (str : jsstring) (bold : bool) : TextSegment :=
  {| text := str; color := Some Color.secondary; bold := Some bold; url := None |}.
Definition accent (str : jsstring) (bold : bool) : TextSegment :=
  {| text := str; color := Some Color.accent; bold := Some bold; url := None |}.
Definition warning (str : jsstring) (bold : bool) : TextSegment :=
  {| text := str; color := Some Color.warning; bold := Some bold; url := None |}.
Definition error (str : jsstring) (bold : bool) : TextSegment :=
  {| text := str; color := Some Color.error; bold := Some bold; url := None |}.
Definition muted (str : jsstring) (bold : bool) : TextSegment :=
  {| text := str; color := Some Color.muted; bold := Some bold; url := None |}.
Definition default (str : jsstring) (bold : bool) : TextSegment :=
  {| text := str; color := Some Color.default; bold := Some bold; url := None |}.
End text.

(** [output.map(segment => segment.text).join('')] *)
Definition formatToString (output : FormattedOutput) : jsstring :=
  flat_map text output.

(** [outputs.flat()] *)
Definition combine (outputs : list FormattedOutput) : FormattedOutput :=
  concat outputs.

Definition createHeader `{Host} (title : jsstring) : FormattedOutput :=
  [ text.primary (toUpperCase title) true;
    text.default (js "\n\n") false ].

Definition createEntry (label value : jsstring) (valueColor : TerminalColor)
  : FormattedOutput :=
  [ text.primary (label ++ js ": ") true;
    {| text := value; color := Some valueColor; bold := None; url := None |};
    text.default (js "\n") false ].

Definition createLink (label url : jsstring) : FormattedOutput :=
  [ text.primary (padEnd label 14) false;
    {| text := url; color := Some Color.secondary; bold := None; url := Some url |};
    text.default (js "\n") false ].

(** A string is truthy when it is not empty; an absent argument is not. *)
Definition truthy (s : option jsstring) : bool :=
  match s with
  | Some (_ :: _) => true
  | _ => false
  end.

Definition createListItem (number : N) (title : jsstring)
    (description link : option jsstring) : FormattedOutput :=
  [ text.default (js "\n") false;
    text.primary (js "[" ++ numberToString number ++ js "] ") true;
    text.primary title true;
    text.default (js "\n") false ]
  ++ (if truthy description
      then [ text.muted (js "    " ++ default [] description) false;
             text.default (js "\n") false ]
      else [])
  ++ (if truthy link
      then [ text.muted (js "    🔗 ") false;
             {| text := default [] link; color := Some Color.secondary;
                bold := None; url := link |};
             text.default (js "\n") false ]
      else []).

Definition createBullet (label value : jsstring) : FormattedOutput :=
  [ text.primary (js "  ▸ " ++ label ++ js ": ") true;
    text.default value false;
    text.default (js "\n") false ].


(** ** commands.ts *)

Module Commands.

Inductive Content :=
| Text (s : jsstring)
| Segments (segments : FormattedOutput).

#[global] Instance Content_eq_dec : EqDecision Content.
Proof. solve_decision. Defined.

Record CommandOutput := {
  content : Content;
  error : bool;
}.

(** What [await commands[command](args)] can hand back: a [CommandOutput]
    from a handler of the literal, or the value of an inherited member. *)
Inductive Resolved :=
| Output (output : CommandOutput)
| NotOutput (value : Foreign).

(** An async handler: it may draw random numbers, and its promise
    resolves with a [CommandOutput] or rejects. *)
Abbreviation Handler := (list jsstring -> Eff Random CommandOutput).

Module PORTFOLIO_DATA.
Definition name : jsstring := js "Vin√≠cius Manoel Ribeiro".
Definition email : jsstring := js "viniciusmanoel@duck.com".
Module about.
Definition description : jsstring :=
      js "I'm a PhD student in Computer Science, specializing in Biotechnology \n    with expertise in modern technologies. I love creating elegant solutions to complex\n    problems and building beautiful, performant applications.".
Definition skills : jsstring := js "Python, C++, Rust, JavaScript, Go, Ruby".
Definition location : jsstring := js "Bras√≠lia, Brazil".
End about.
Module social.
Definition github : jsstring := js "https://github.com/vncsmnl".
Definition linkedin : jsstring := js "https://linkedin.com/in/vncsmnl".
Definition twitter : jsstring := js "https://twitter.com/vncsmnl".
Definition portfolio : jsstring := js "https://vini.thedev.id/".
Definition linktree : jsstring := js "https://vinicius.is-a.dev/".
End social.
Module Project.
Record t := { name : jsstring; description : jsstring; link : jsstring }.
End Project.
Definition projects : list Project.t :=
    [ {| Project.name := js "astar_msa_rust";
         Project.description := js "PA-Star is a software that performs a parallel A-Star search to solve the Multiple Sequence Alignment (MSA) problem.";
         Project.link := js "https://github.com/vncsmnl/astar_msa_rust" |};
      {| Project.name := js "pa-star-rv";
         Project.description := js "An interactive 3D visualization tool for analyzing execution logs from the PA-Star (Parallel A-Star) algorithm applied to the Multiple Sequence Alignment (MSA) problem.";
         Project.link := js "https://github.com/vncsmnl/pa-star-rv" |};
      {| Project.name := js "msa_app";
         Project.description := js "A web-based interface for running Multiple Sequence Alignment (MSA) using A-Star and PA-Star algorithms.";
         Project.link := js "https://github.com/vncsmnl/msa_app" |} ].
Module StackItem.
Record t := { category : jsstring; tech : jsstring }.
End StackItem.
Definition stack : list StackItem.t :=
    [ {| StackItem.category := js "Frontend"; StackItem.tech := js "React, TypeScript, Tailwind CSS" |};
      {| StackItem.category := js "Backend"; StackItem.tech := js "Node.js, Bun, FastAPI, Flask" |};
      {| StackItem.category := js "Frameworks"; StackItem.tech := js "LangChain, CrewAI, OpenAI API, Hugging Face" |};
      {| StackItem.category := js "Database"; StackItem.tech := js "PostgreSQL, SQLite, FAISS" |};
      {| StackItem.category := js "DevOps"; StackItem.tech := js "Docker, GitHub Actions, AWS, Kubernetes" |};
      {| StackItem.category := js "Tools"; StackItem.tech := js "Git, Latex, Ollama, " |} ].
Definition resume : jsstring := js "https://vinicius.is-a.dev/cv/pdf".
End PORTFOLIO_DATA.

(** [xs.flatMap((x, idx) => f(x, idx))] *)
Fixpoint flatMapIndexed {A B} (f : A -> N -> list B) (xs : list A) (idx : N) : list B :=
  match xs with
  | [] => []
  | x :: rest => f x idx ++ flatMapIndexed f rest (idx + 1)
  end.

Section Handlers.
Context `{Host}.

Definition ok (output : FormattedOutput) : Eff Random CommandOutput :=
  mret {| content := Segments output; error := false |}.

Definition help : Handler := fun _ =>
  ok (combine
    [ createHeader (js "AVAILABLE COMMANDS");
      [ text.primary (js "about       ") true;
        text.default (js "- Learn about me\n") false;
        text.primary (js "blog        ") true;
        text.default (js "- View my blog posts\n") false;
        text.primary (js "social      ") true;
        text.default (js "- Display social network links\n") false;
        text.primary (js "projects    ") true;
        text.default (js "- View my coding projects\n") false;
        text.primary (js "stack       ") true;
        text.default (js "- View my current tech stack\n") false;
        text.primary (js "videos      ") true;
        text.default (js "- View my YouTube videos\n") false;
        text.primary (js "podcasts    ") true;
        text.default (js "- View my Spotify podcast episodes\n") false;
        text.primary (js "resume      ") true;
        text.default (js "- Get my online resume link\n") false;
        text.primary (js "history     ") true;
        text.default (js "- View command history\n") false;
        text.primary (js "email       ") true;
        text.default (js "- See my email address\n") false;
        text.primary (js "sudo        ") true;
        text.default (js "- Execute a command as another user\n") false;
        text.primary (js "clear       ") true;
        text.default (js "- Clear terminal screen\n") false;
        text.primary (js "reload      ") true;
        text.default (js "- Reload page and clear history\n") false;
        text.primary (js "help        ") true;
        text.default (js "- Show this help message\n") false;
        text.default (js "\n") false;
        text.muted (js "Type any command to execute it.\n") false ] ]).

Definition about : Handler := fun _ =>
  ok (combine
    [ createHeader (js "ABOUT ME");
      [ text.default (PORTFOLIO_DATA.about.description ++ js "\n\n") false;
        text.primary (js "Skills: ") true;
        text.accent (PORTFOLIO_DATA.about.skills ++ js "\n") false;
        text.primary (js "Location: ") true;
        text.default (PORTFOLIO_DATA.about.location ++ js "\n") false ] ]).

Definition email : Handler := fun _ =>
  ok [ text.primary (js "üìß Email: ") true;
       text.secondary PORTFOLIO_DATA.email false;
       text.default (js "\n") false ].

Definition social : Handler := fun _ =>
  ok (combine
    [ createHeader (js "SOCIAL NETWORKS");
      createLink (js "GitHub:") PORTFOLIO_DATA.social.github;
      createLink (js "LinkedIn:") PORTFOLIO_DATA.social.linkedin;
      createLink (js "Twitter:") PORTFOLIO_DATA.social.twitter;
      createLink (js "Portfolio:") PORTFOLIO_DATA.social.portfolio;
      createLink (js "Linktree:") PORTFOLIO_DATA.social.linktree ]).

Definition projects : Handler := fun _ =>
  let projectItems :=
    flatMapIndexed
      (fun project idx =>
         createListItem (idx + 1) (PORTFOLIO_DATA.Project.name project)
           (Some (PORTFOLIO_DATA.Project.description project))
           (Some (PORTFOLIO_DATA.Project.link project)))
      PORTFOLIO_DATA.projects 0 in
  ok (combine [ createHeader (js "MY PROJECTS"); projectItems ]).

Definition stack : Handler := fun _ =>
  let stackItems :=
    flat_map
      (fun item =>
         createBullet (PORTFOLIO_DATA.StackItem.category item)
           (PORTFOLIO_DATA.StackItem.tech item))
      PORTFOLIO_DATA.stack in
  ok (combine [ createHeader (js "TECH STACK"); stackItems ]).

Definition blog : Handler := fun _ =>
  ok (combine
    [ createHeader (js "MY BLOG");
      [ text.default (js "Check my articles about web\n") false;
        text.default (js "development, best practices, and tech insights.\n\n") false ];
      createLink (js "Blog:") (js "https://vini.thedev.id/blog/") ]).

Definition videos : Handler := fun _ =>
  ok (combine
    [ createHeader (js "YOUTUBE VIDEOS");
      [ text.default (js "Subscribe to my channel for tutorials and\n") false;
        text.default (js "tech content.\n\n") false ];
      createLink (js "YouTube:") (js "https://youtube.com/@vncsmnl") ]).

Definition podcasts : Handler := fun _ =>
  ok (combine
    [ createHeader (js "SPOTIFY PODCASTS");
      [ text.default (js "Coming soon! Listen to my podcast episodes on Spotify.\n\n") false ];
      createLink (js "Spotify:") (js "https://spotify.com/vncsmnl") ]).

Definition resume : Handler := fun _ =>
  ok (combine
    [ createHeader (js "RESUME");
      createLink (js "Download:") PORTFOLIO_DATA.resume;
      createLink (js "View online:") (js "https://vinicius.is-a.dev/cv/") ]).

Definition history : Handler := fun _ =>
  ok (combine
    [ createHeader (js "COMMAND HISTORY");
      [ text.default (js "Use arrow keys ") false;
        text.primary (js "(‚Üë ‚Üì)") true;
        text.default (js " to navigate through command history.\n") false ] ]).

Definition packages : list jsstring :=
  map js
    [ "react"; "typescript"; "vite"; "tailwindcss"; "nodejs"; "npm"; "webpack";
      "babel"; "eslint"; "prettier"; "jest"; "cypress"; "docker"; "kubernetes";
      "postgresql"; "mongodb"; "redis"; "nginx"; "apache"; "git"; "github-cli";
      "python"; "pip"; "django"; "flask"; "fastapi"; "express"; "nestjs";
      "nextjs"; "gatsby"; "nuxt"; "vue"; "angular"; "svelte"; "solid";
      "prisma"; "graphql"; "apollo"; "trpc"; "zod"; "yup"; "formik";
      "axios"; "fetch"; "websocket"; "socket.io"; "webrtc"; "pwa";
      "electron"; "tauri"; "capacitor"; "react-native"; "expo"; "flutter" ]%string.

(** [`${floor(random*5)+1}.${floor(random*20)}.${floor(random*10)}`] *)
Definition randomVersion : Eff Random jsstring :=
  major ← randomBelow 5;
  minor ← randomBelow 20;
  patch ← randomBelow 10;
  mret (numberToString (major + 1) ++ js "." ++ numberToString minor
        ++ js "." ++ numberToString patch).

(** The body of [for (let i = 0; i < numPackages; i++)], with [remaining]
    the iterations still to run. *)
Fixpoint packageLines (remaining : nat) (i : N) : Eff Random FormattedOutput :=
  match remaining with
  | O => mret []
  | S remaining' =>
      index ← randomBelow (N.of_nat (length packages));
      let pkg := default (js "undefined") (packages !! N.to_nat index) in
      oldVersion ← randomVersion;
      newVersion ← randomVersion;
      size ← randomBelow 500;
      let size := size + 50 in
      lines ← packageLines remaining' (i + 1);
      mret ([ text.default (js "Get:" ++ numberToString (i + 1) ++ js " ") false;
              text.accent (js "stable/main ") true;
              text.default (pkg ++ js " ") false;
              text.muted (oldVersion ++ js " -> ") false;
              text.primary newVersion true;
              text.default (js " [" ++ numberToString size ++ js " kB]\n") false ]
            ++ lines)
  end.

Definition generateUpdateLines : Eff Random FormattedOutput :=
  numPackages ← randomBelow 8;
  let numPackages := numPackages + 5 in
  lines ← packageLines (N.to_nat numPackages) 0;
  totalSize ← randomBelow 5000;
  let totalSize := totalSize + 1000 in
  speed ← randomBelow 3000;
  let speed := speed + 500 in
  let time := totalSize / speed in
  mret (lines
    ++ [ text.default (js "\nFetched ") false;
         text.primary (numberToString totalSize ++ js " kB") true;
         text.default (js " in ") false;
         text.accent (numberToString time ++ js "s") true;
         text.default (js " (") false;
         text.secondary (numberToString speed ++ js " kB/s") false;
         text.default (js ")\n\n") false ]
    ++ [ text.default (js "Reading package lists... ") false;
         text.accent (js "Done\n") true ]
    ++ [ text.default (js "Building dependency tree... ") false;
         text.accent (js "Done\n") true ]
    ++ [ text.default (js "Reading state information... ") false;
         text.accent (js "Done\n") true ]
    ++ [ text.accent (js "\n‚úì All packages are up to date!\n") true ]).

Definition isUpdateCommand (args : list jsstring) : bool :=
  let fullCommand := toLowerCase (join (js " ") args) in
  includes fullCommand (js "update")
  || includes fullCommand (js "upgrade")
  || includes fullCommand (js "install")
  || bool_decide (length args = 0%nat).

Definition sudo : Handler := fun args =>
  if isUpdateCommand args then
    lines ← generateUpdateLines;
    ok (combine
      [ [ text.primary (js "[sudo] ") true; text.default (js "password for user: ") false ];
        [ text.muted (js "***************\n\n") false ];
        [ text.accent (js "Reading package lists... Done\n") true ];
        [ text.default (js "Building dependency tree\n") false ];
        [ text.default (js "Reading state information... Done\n\n") false ];
        lines ])
  else
    mret {| content := Segments
              [ text.primary (js "[sudo] ") true;
                text.default (js "password for user: ") false;
                text.muted (js "***************\n\n") false;
                text.error (js "sudo: " ++ default (js "undefined") (head args)
                            ++ js ": command not found\n") false ];
            error := false |}.

Definition clear : Handler := fun _ =>
  mret {| content := Text (js "CLEAR"); error := false |}.

Definition reload : Handler := fun _ =>
  mret {| content := Text (js "RELOAD"); error := false |}.

(** The object literal [commands]. *)
Definition commands : gmap jsstring Handler :=
  list_to_map
    [ (js "help", help); (js "about", about); (js "email", email);
      (js "social", social); (js "projects", projects); (js "stack", stack);
      (js "blog", blog); (js "videos", videos); (js "podcasts", podcasts);
      (js "resume", resume); (js "history", history); (js "sudo", sudo);
      (js "clear", clear); (js "reload", reload) ].

(** Property lookup on an object literal: an own key first, then
    [Object.prototype]. [name in registry] holds when this finds
    something; [registry[name](args)] calls what it finds. *)
Definition getProperty (registry : gmap jsstring Handler) (name : jsstring)
  : option (list jsstring -> Eff Random Resolved) :=
  match registry !! name with
  | Some handler => Some (fun args => output ← handler args; mret (Output output))
  | None =>
      match objectPrototype name with
      | Some member =>
          Some (fun args rng =>
                  match member args with
                  | Normal value => (Normal (NotOutput value), rng)
                  | Throw e => (Throw e, rng)
                  end)
      | None => None
      end
  end.

(** [error instanceof Error ? error.message : 'Unknown error'] *)
Definition errorMessage (error : Thrown) : jsstring :=
  match error with
  | ErrorObject message => message
  | NotAnError => js "Unknown error"
  end.

(** [getCommandOutput], with the registry it reads as a parameter. *)
Definition getCommandOutputWith (registry : gmap jsstring Handler) (input : jsstring)
  : Eff Random Resolved :=
  let trimmed := toLowerCase (trim input) in
  let (command, args) := splitSpace trimmed in
  if decide (command = js "clear") then
    mret (Output {| content := Text (js "CLEAR"); error := false |})
  else if decide (command = js "reload") then
    mret (Output {| content := Text (js "RELOAD"); error := false |})
  else
    match getProperty registry command with
    | Some callee =>
        tryCatch (callee args)
          (fun error =>
             mret (Output
               {| content := Segments
                    [ text.error (js "Error executing command: ") false;
                      text.error (errorMessage error) false;
                      text.default (js "\n") false ];
                  error := true |}))
    | None =>
        mret (Output
          {| content := Segments
               [ text.error (js "Command not found: " ++ command ++ js ". ") false;
                 text.default (js "Type ") false;
                 text.primary (js "help") true;
                 text.default (js " for available commands.\n") false ];
             error := true |})
    end.

Definition getCommandOutput : jsstring -> Eff Random Resolved :=
  getCommandOutputWith commands.

End Handlers.

End Commands.

(** ** A host for closed examples

    Case mapping restricted to Basic Latin, where every engine agrees,
    and the members of [Object.prototype] as ECMAScript lists them; the
    messages of the engine's own [TypeError]s are those of V8. *)

Definition asciiLower (u : N) : N := if (0x41 <=? u) && (u <=? 0x5A) then u + 0x20 else u.
Definition asciiUpper (u : N) : N := if (0x61 <=? u) && (u <=? 0x7A) then u - 0x20 else u.

Definition inheritedMembers : gmap jsstring (list jsstring -> Completion Foreign) :=
  list_to_map
    [ (js "constructor", fun _ => Normal Fieldless);
      (js "toString", fun _ => Normal Fieldless);
      (js "toLocaleString", fun _ => Normal Fieldless);
      (js "valueOf", fun _ => Normal Fieldless);
      (js "hasOwnProperty", fun _ => Normal Fieldless);
      (js "isPrototypeOf", fun _ => Normal Fieldless);
      (js "propertyIsEnumerable", fun _ => Normal Fieldless);
      (js "__defineGetter__", fun _ =>
         Throw (ErrorObject (js "Object.prototype.__defineGetter__: Expecting function")));
      (js "__defineSetter__", fun _ =>
         Throw (ErrorObject (js "Object.prototype.__defineSetter__: Expecting function")));
      (js "__lookupGetter__", fun args =>
         Normal (if decide (join (js ",") args = js "__proto__") then Fieldless else Undefined));
      (js "__lookupSetter__", fun args =>
         Normal (if decide (join (js ",") args = js "__proto__") then Fieldless else Undefined));
      (js "__proto__", fun _ =>
         Throw (ErrorObject (js "commands[command] is not a function"))) ].

#[global] Instance basicLatinHost : Host := {|
  toLowerCase := map asciiLower;
  toUpperCase := map asciiUpper;
  objectPrototype := fun name => inheritedMembers !! name;
|}.


(** ** Terminal.tsx *)

Module Terminal.
Import Commands.

Module LineType.
Inductive t := command | output | error | info | welcome.
End LineType.

(** [content] is [None] when it was read off a value without that field
    ([undefined]). *)
Record TerminalLine := {
  id : jsstring;
  type : LineType.t;
  content : option Content;
  displayedContent : Content;
  isComplete : bool;
}.

(** The React state of the component. *)
Record Session := {
  lines : list TerminalLine;
  input : jsstring;
  history : list jsstring;
  historyIndex : Z;
  isProcessing : bool;
}.

(** The component in its environment: its state, the random draws and the
    readings of [Date.now()] still to come, every transcript handed to
    [setLines] so far (what React was asked to paint, oldest first), and
    the number of page reloads requested. One call of [handleCommand]
    is run to its end as one state transformer: while it awaits, the
    only handlers that could run are the arrow keys and typing, which
    write [input] and [historyIndex] and nothing the call reads. *)
Record World := {
  session : Session;
  random : Random;
  clock : nat -> N;
  painted : list (list TerminalLine);
  reloads : nat;
}.

Definition welcomeLines : list TerminalLine :=
  [ {| id := js "1"; type := LineType.welcome;
       content := Some (Text (js "Welcome to Terminal Portfolio, the friendly interactive shell"));
       displayedContent := Text (js "Welcome to Terminal Portfolio, the friendly interactive shell");
       isComplete := true |};
    {| id := js "2"; type := LineType.welcome;
       content := Some (Text (js "Type help for instructions on how to use this terminal"));
       displayedContent := Text (js "Type help for instructions on how to use this terminal");
       isComplete := true |} ].

Definition initialSession : Session :=
  {| lines := welcomeLines; input := []; history := []; historyIndex := -1;
     isProcessing := false |}.

Definition withSession (f : Session -> Session) (w : World) : World :=
  {| session := f (session w); random := random w; clock := clock w;
     painted := painted w; reloads := reloads w |}.

Definition setLines (update : list TerminalLine -> list TerminalLine) : Eff World unit :=
  modify (fun w =>
    let next := update (lines (session w)) in
    {| session := {| lines := next; input := input (session w);
                     history := history (session w);
                     historyIndex := historyIndex (session w);
                     isProcessing := isProcessing (session w) |};
       random := random w; clock := clock w;
       painted := painted w ++ [next]; reloads := reloads w |}).

Definition setInput (value : jsstring) : Eff World unit :=
  modify (withSession (fun s =>
    {| lines := lines s; input := value; history := history s;
       historyIndex := historyIndex s; isProcessing := isProcessing s |})).

Definition setHistory (value : list jsstring) : Eff World unit :=
  modify (withSession (fun s =>
    {| lines := lines s; input := input s; history := value;
       historyIndex := historyIndex s; isProcessing := isProcessing s |})).

Definition setHistoryIndex (value : Z) : Eff World unit :=
  modify (withSession (fun s =>
    {| lines := lines s; input := input s; history := history s;
       historyIndex := value; isProcessing := isProcessing s |})).

Definition setIsProcessing (value : bool) : Eff World unit :=
  modify (withSession (fun s =>
    {| lines := lines s; input := input s; history := history s;
       historyIndex := historyIndex s; isProcessing := value |})).

(** [Date.now()] *)
Definition dateNow : Eff World N :=
  fun w =>
    (Normal (clock w 0%nat),
     {| session := session w; random := random w; clock := fun k => clock w (S k);
        painted := painted w; reloads := reloads w |}).

(** [window.location.reload()] *)
Definition reload : Eff World unit :=
  modify (fun w =>
    {| session := session w; random := random w; clock := clock w;
       painted := painted w; reloads := S (reloads w) |}).

(** A computation on the random draws, run inside the component. *)
Definition withRandom {A} (c : Eff Random A) : Eff World A :=
  fun w =>
    match c (random w) with
    | (outcome, rng) =>
        (outcome,
         {| session := session w; random := rng; clock := clock w;
            painted := painted w; reloads := reloads w |})
    end.

(** The updater [prevLines => { ...; const lineIndex = updatedLines.findIndex(l => l.id === lineId);
    if (lineIndex !== -1) updatedLines[lineIndex].field = value; return updatedLines }]. *)
Definition updateLine (lineId : jsstring) (change : TerminalLine -> TerminalLine)
    (prevLines : list TerminalLine) : list TerminalLine :=
  match list_find (fun l => id l = lineId) prevLines with
  | Some (lineIndex, line) => <[lineIndex := change line]> prevLines
  | None => prevLines
  end.

Definition setDisplayedContent (value : Content) (l : TerminalLine) : TerminalLine :=
  {| id := id l; type := type l; content := content l;
     displayedContent := value; isComplete := isComplete l |}.

Definition setComplete (l : TerminalLine) : TerminalLine :=
  {| id := id l; type := type l; content := content l;
     displayedContent := displayedContent l; isComplete := true |}.

(** *** The renderer

    Between two ticks the renderer awaits a timer, and React applies
    the updater queued by [setLines] before the timer fires: every
    updater runs on the transcript the previous one produced. A queued
    snapshot [[...displayedSegments]] shares its segment objects with
    the array the loop goes on mutating; what is painted at a tick is
    the value the snapshot has then, and that value is what the lists
    below hold. *)

(** *** The typing loop over segments

    The locals of the [while] loop, and one run of its body: [None] when
    the loop condition fails, otherwise the next locals and, when the
    body appended a code unit, the snapshot [[...displayedSegments]] it
    hands to [setLines]. *)
Record Cursor := {
  displayedSegments : FormattedOutput;
  currentSegmentIndex : nat;
  currentCharIndex : nat;
}.

(** [{ ...segment, text: value }] *)
Definition withText (segment : TextSegment) (value : jsstring) : TextSegment :=
  {| text := value; color := color segment; bold := bold segment; url := url segment |}.

(** [displayedSegments[displayedSegments.length - 1].text += ch] *)
Definition appendToLast (segments : FormattedOutput) (ch : N) : FormattedOutput :=
  match last segments with
  | Some segment =>
      <[(length segments - 1)%nat := withText segment (text segment ++ [ch])]> segments
  | None => segments
  end.

Definition whileBody (content : FormattedOutput) (cur : Cursor)
  : option (Cursor * option FormattedOutput) :=
  match content !! currentSegmentIndex cur with
  | None => None
  | Some currentSegment =>
      let segmentText := text currentSegment in
      let opened :=
        if decide (currentCharIndex cur = 0%nat)
        then displayedSegments cur ++ [withText currentSegment []]
        else displayedSegments cur in
      let '(shown, charIndex, snapshot) :=
        match segmentText !! currentCharIndex cur with
        | Some ch =>
            let shown := appendToLast opened ch in
            (shown, S (currentCharIndex cur), Some shown)
        | None => (opened, currentCharIndex cur, None)
        end in
      Some
        (if decide (length segmentText <= charIndex)%nat
         then {| displayedSegments := shown;
                 currentSegmentIndex := S (currentSegmentIndex cur);
                 currentCharIndex := 0 |}
         else {| displayedSegments := shown;
                 currentSegmentIndex := currentSegmentIndex cur;
                 currentCharIndex := charIndex |},
         snapshot)
  end.

(** The snapshots of the whole loop, [None] if [fuel] runs of the body
    do not reach the end of it. *)
Fixpoint whileLoop (fuel : nat) (content : FormattedOutput) (cur : Cursor)
  : option (list FormattedOutput) :=
  match fuel with
  | O => None
  | S fuel' =>
      match whileBody content cur with
      | None => Some []
      | Some (cur', snapshot) =>
          match whileLoop fuel' content cur' with
          | Some snapshots =>
              Some (match snapshot with
                    | Some shown => shown :: snapshots
                    | None => snapshots
                    end)
          | None => None
          end
      end
  end.

(** Runs of the body that always suffice: each one ends a segment or
    appends a code unit, and the last one finds the condition false. *)
Definition enoughFuel (content : FormattedOutput) : nat :=
  S (length content + length (formatToString content)).

Definition segmentSnapshots (content : FormattedOutput) : list FormattedOutput :=
  default []
    (whileLoop (enoughFuel content) content
       {| displayedSegments := []; currentSegmentIndex := 0; currentCharIndex := 0 |}).

(** The values [displayedContent] takes in
    [for (let i = 0; i < contentStr.length; i++) displayedContent += contentStr[i]],
    with [rest] the code units still to come. *)
Fixpoint stringSnapshots (displayedContent rest : jsstring) : list jsstring :=
  match rest with
  | [] => []
  | ch :: rest' =>
      let displayedContent := displayedContent ++ [ch] in
      displayedContent :: stringSnapshots displayedContent rest'
  end.

(** Every [displayedContent] the renderer publishes for [content], one
    per tick. *)
Definition snapshots (content : Content) : list Content :=
  match content with
  | Segments segments => map Segments (segmentSnapshots segments)
  | Text contentStr => map Text (stringSnapshots [] contentStr)
  end.

(** One [setLines] per snapshot, each followed by the awaited delay. *)
Fixpoint publish (lineId : jsstring) (shown : list Content) : Eff World unit :=
  match shown with
  | [] => mret tt
  | value :: rest =>
      setLines (updateLine lineId (setDisplayedContent value));;
      publish lineId rest
  end.

(** [renderOutputLine]; reading [.length] off an [undefined] content
    throws. *)
Definition renderOutputLine (lineId : jsstring) (content : option Content)
    (type : LineType.t) : Eff World unit :=
  match content with
  | Some content =>
      publish lineId (snapshots content);;
      setLines (updateLine lineId setComplete)
  | None =>
      throw (ErrorObject (js "Cannot read properties of undefined (reading 'length')"))
  end.

(** [result.content] and [result.error] on what the dispatcher handed
    back: reading a field of [undefined] throws, a value without the
    field gives [undefined], which is falsy. *)
Definition contentOf (result : Resolved) : Eff World (option Content) :=
  match result with
  | Output output => mret (Some (Commands.content output))
  | NotOutput Fieldless => mret None
  | NotOutput Undefined =>
      throw (ErrorObject (js "Cannot read properties of undefined (reading 'content')"))
  end.

Definition errorOf (result : Resolved) : bool :=
  match result with
  | Output output => Commands.error output
  | NotOutput _ => false
  end.

Section Component.
Context `{Host}.

Definition handleCommand (command : jsstring) : Eff World unit :=
  w ← get;
  if bool_decide (trim command = []) || isProcessing (session w) then mret tt
  else
    setHistory (history (session w) ++ [command]);;
    setHistoryIndex (-1);;
    now ← dateNow;
    let commandId := numberToString now in
    let commandLine :=
      {| id := commandId; type := LineType.command; content := Some (Text command);
         displayedContent := Text command; isComplete := true |} in
    setLines (fun prev => prev ++ [commandLine]);;
    setInput [];;
    setIsProcessing true;;
    tryFinally
      (tryCatch
         (result ← withRandom (getCommandOutput command);
          resultContent ← contentOf result;
          if decide (resultContent = Some (Text (js "CLEAR"))) then
            setLines (fun _ => welcomeLines);;
            setHistory [];;
            setHistoryIndex (-1)
          else if decide (resultContent = Some (Text (js "RELOAD"))) then
            reload
          else
            now ← dateNow;
            let outputId := js "output-" ++ numberToString now in
            let outputType := if errorOf result then LineType.error else LineType.output in
            setLines (fun prev => prev ++
              [ {| id := outputId; type := outputType; content := resultContent;
                   displayedContent := Text []; isComplete := false |} ]);;
            renderOutputLine outputId resultContent outputType)
         (fun error =>
            now ← dateNow;
            setLines (fun prev => prev ++
              [ {| id := js "error-" ++ numberToString now; type := LineType.error;
                   content := Some (Text (js "An error occurred while executing the command."));
                   displayedContent := Text (js "An error occurred while executing the command.");
                   isComplete := true |} ])))
      (setIsProcessing false).

(** [history[k]]: [undefined] off the array. *)
Definition historyAt (history : list jsstring) (k : Z) : option jsstring :=
  if decide (0 <= k)%Z then history !! Z.to_nat k else None.

(** [handleKeyDown] on an event with key [key]. [Enter] submits the
    input; the arrows move the history cursor and show the entry under
    it. The result is [None] when [setInput] is handed [undefined]
    ([history[k]] off the array), a value the state of a text input does
    not have. *)
Definition handleKeyDown (key : jsstring) (w : World) : option (Completion unit * World) :=
  let s := session w in
  let count := Z.of_nat (length (history s)) in
  if decide (key = js "Enter") then
    Some (handleCommand (input s) w)
  else if decide (key = js "ArrowUp") then
    if decide (historyIndex s < count - 1)%Z then
      let newIndex := (historyIndex s + 1)%Z in
      entry ← historyAt (history s) (count - 1 - newIndex);
      Some ((setHistoryIndex newIndex;; setInput entry) w)
    else Some (Normal tt, w)
  else if decide (key = js "ArrowDown") then
    if decide (historyIndex s > 0)%Z then
      let newIndex := (historyIndex s - 1)%Z in
      entry ← historyAt (history s) (count - 1 - newIndex);
      Some ((setHistoryIndex newIndex;; setInput entry) w)
    else if decide (historyIndex s = 0)%Z then
      Some ((setHistoryIndex (-1);; setInput []) w)
    else Some (Normal tt, w)
  else Some (Normal tt, w).

End Component.

End Terminal.


(** ** TerminalOutput.tsx *)

Module Rendering.
Import Commands.
Import Terminal.

(** What a component returns: text, and elements with their class and
    children ([key] is React's own business). *)
#[local] Unset Elimination Schemes.
Inductive Node :=
| TextNode (data : jsstring)
| Element (tag className : jsstring) (children : list Node).
#[local] Set Elimination Schemes.

(** [line.displayedContent || line.content]: the empty string is falsy,
    an array never is. *)
Definition displayed (line : TerminalLine) : option Content :=
  match displayedContent line with
  | Text [] => content line
  | shown => Some shown
  end.

Definition getColorClass (color : option TerminalColor) : jsstring :=
  match color with
  | Some Color.primary => js "text-terminal-cyan"
  | Some Color.secondary => js "text-terminal-magenta"
  | Some Color.accent => js "text-terminal-green"
  | Some Color.warning => js "text-terminal-yellow"
  | Some Color.error => js "text-terminal-red"
  | Some Color.muted => js "text-terminal-gray"
  | Some Color.default | None => js "text-terminal-white"
  end.

Definition renderFormattedOutput (content : FormattedOutput) : list Node :=
  map (fun segment =>
         Element (js "span")
           (getColorClass (color segment) ++ js " "
            ++ (if default false (bold segment) then js "font-bold" else []))
           [TextNode (text segment)])
      content.

Definition renderPlainContent (content : jsstring) : Node :=
  Element (js "span") (js "text-terminal-white") [TextNode content].

(** [typeof displayedContent === 'string' ? renderPlainContent(displayedContent)
    : renderFormattedOutput(displayedContent)]; [undefined] has no [map]. *)
Definition renderContent (displayedContent : option Content) : Completion (list Node) :=
  match displayedContent with
  | Some (Text content) => Normal [renderPlainContent content]
  | Some (Segments content) => Normal (renderFormattedOutput content)
  | None => Throw (ErrorObject (js "Cannot read properties of undefined (reading 'map')"))
  end.

Definition TerminalOutput (line : TerminalLine) : Completion Node :=
  let displayedContent := displayed line in
  let block (className : jsstring) : Completion Node :=
    match renderContent displayedContent with
    | Normal children =>
        Normal (Element (js "div") (js "terminal-line")
                  [Element (js "div") className children])
    | Throw thrown => Throw thrown
    end in
  match type line with
  | LineType.command =>
      match displayedContent with
      | Some shown =>
          Normal (Element (js "div") (js "terminal-line")
            [ Element (js "span") (js "terminal-prompt text-terminal-cyan font-bold")
                [TextNode (js "$")];
              Element (js "span") (js "terminal-command text-terminal-white ml-2")
                [TextNode match shown with
                          | Text s => s
                          | Segments segments => join [] (map text segments)
                          end] ])
      | None => Throw (ErrorObject (js "Cannot read properties of undefined (reading 'map')"))
      end
  | LineType.error => block (js "terminal-output text-terminal-red")
  | LineType.info => block (js "terminal-output text-terminal-cyan")
  | LineType.welcome => block (js "text-terminal-cyan")
  | LineType.output => block (js "terminal-output")
  end.

End Rendering.


(** ** The first formatting.ts: colour tags in strings *)

Module Tags.

Inductive LineColor := cyan | magenta | white | error | success.

Record FormattedLine := {
  text : jsstring;
  color : option LineColor;
}.

(** The characters [.] does not match. *)
Definition isLineTerminator (u : N) : bool :=
  (u =? 0x0A) || (u =? 0x0D) || (u =? 0x2028) || (u =? 0x2029).

(** [(.*?)close] tried at the head of [s]: the shortest run of
    characters other than line terminators that [close] follows. *)
Fixpoint lazyUntil (close s : jsstring) : option jsstring :=
  if startsWith s close then Some []
  else
    match s with
    | [] => None
    | u :: s' => if isLineTerminator u then None else cons u <$> lazyUntil close s'
    end.

(** [line.match(/open(.*?)close/)], for literal [open] and [close]: the
    capture of the match at the leftmost start that has one. *)
Fixpoint matchTag (open close line : jsstring) : option jsstring :=
  match (if startsWith line open then lazyUntil close (drop (length open) line) else None) with
  | Some captured => Some captured
  | None =>
      match line with
      | [] => None
      | _ :: rest => matchTag open close rest
      end
  end.

(** [const [first, ...rest] = s.split(sep)] for a separator of one code unit. *)
Fixpoint splitOn (sep : N) (s : jsstring) : jsstring * list jsstring :=
  match s with
  | [] => ([], [])
  | u :: s' =>
      let (piece, pieces) := splitOn sep s' in
      if u =? sep then ([], piece :: pieces) else (u :: piece, pieces)
  end.

Definition parseLine (line : jsstring) : FormattedLine :=
  match matchTag (js "[CYAN]") (js "[/CYAN]") line with
  | Some captured => {| text := captured; color := Some cyan |}
  | None =>
  match matchTag (js "[MAGENTA]") (js "[/MAGENTA]") line with
  | Some captured => {| text := captured; color := Some magenta |}
  | None =>
  match matchTag (js "[WHITE]") (js "[/WHITE]") line with
  | Some captured => {| text := captured; color := Some white |}
  | None =>
  match matchTag (js "[ERROR]") (js "[/ERROR]") line with
  | Some captured => {| text := captured; color := Some error |}
  | None =>
  match matchTag (js "[SUCCESS]") (js "[/SUCCESS]") line with
  | Some captured => {| text := captured; color := Some success |}
  | None => {| text := line; color := Some white |}
  end end end end end.

Definition parseColoredOutput (text : jsstring) : list FormattedLine :=
  let (first, rest) := splitOn 0x0A text in
  map parseLine (first :: rest).

Module format.
Definition title (text : jsstring) : jsstring := js "[CYAN]" ++ text ++ js "[/CYAN]".
Definition link (text : jsstring) : jsstring := js "[MAGENTA]" ++ text ++ js "[/MAGENTA]".
Definition description (text : jsstring) : jsstring := js "[WHITE]" ++ text ++ js "[/WHITE]".
Definition error (text : jsstring) : jsstring := js "[ERROR]" ++ text ++ js "[/ERROR]".
Definition success (text : jsstring) : jsstring := js "[SUCCESS]" ++ text ++ js "[/SUCCESS]".
End format.

Definition createSocialEntry (platform url : jsstring) : jsstring :=
  join (js " ") [ format.title (padEnd platform 12); format.link url ].

End Tags.

(** ** The first Terminal.tsx: string content, one line per line feed

    In the first version of the component every content is a string,
    and [renderOutputLine] works on a copy of the transcript its closure
    holds ([lines]), which it hands to [setLines] whole after every
    change. *)

Module FirstTerminal.
Import Commands.
Import Terminal.

(** [setLines([...lines_copy])] *)
Definition setLinesTo (lines_copy : list TerminalLine) : Eff World unit :=
  setLines (fun _ => lines_copy).

(** [const index = lines_copy.findIndex(l => l.id === targetLineId);
    if (index !== -1) { lines_copy[index].field = value; setLines([...lines_copy]) }] *)
Definition writeLine (targetLineId : jsstring) (change : TerminalLine -> TerminalLine)
    (lines_copy : list TerminalLine) : Eff World (list TerminalLine) :=
  match list_find (fun l => id l = targetLineId) lines_copy with
  | Some (index, line) =>
      let lines_copy := <[index := change line]> lines_copy in
      setLinesTo lines_copy;; mret lines_copy
  | None => mret lines_copy
  end.

(** The loop [for (let i = 0; i < currentLine.length; i++)], with
    [lineDisplayedContent] what is typed so far and [rest] the
    characters still to come. *)
Fixpoint typeLine (targetLineId lineDisplayedContent rest : jsstring)
    (lines_copy : list TerminalLine) : Eff World (list TerminalLine) :=
  match rest with
  | [] => mret lines_copy
  | ch :: rest' =>
      let lineDisplayedContent := lineDisplayedContent ++ [ch] in
      lines_copy ← writeLine targetLineId (setDisplayedContent (Text lineDisplayedContent))
                     lines_copy;
      typeLine targetLineId lineDisplayedContent rest' lines_copy
  end.

(** The loop over [contentLines], from [lineNum] on. *)
Fixpoint renderLines (lineId : jsstring) (type : LineType.t) (lineNum : N)
    (contentLines : list jsstring) (lines_copy : list TerminalLine) : Eff World unit :=
  match contentLines with
  | [] => mret tt
  | currentLine :: following =>
      let targetLineId :=
        if lineNum =? 0 then lineId else lineId ++ js "-" ++ numberToString lineNum in
      lines_copy ←
        (if 0 <? lineNum then
           let lines_copy :=
             lines_copy ++ [ {| id := targetLineId; Terminal.type := type;
                                content := Some (Text currentLine);
                                displayedContent := Text []; isComplete := false |} ] in
           setLinesTo lines_copy;; mret lines_copy
         else mret lines_copy);
      lines_copy ← typeLine targetLineId [] currentLine lines_copy;
      lines_copy ← writeLine targetLineId setComplete lines_copy;
      renderLines lineId type (lineNum + 1) following lines_copy
  end.

(** [renderOutputLine], with [lines] the transcript its closure holds. *)
Definition renderOutputLine (lines : list TerminalLine) (lineId content : jsstring)
    (type : LineType.t) : Eff World unit :=
  match list_find (fun l => id l = lineId) lines with
  | None => mret tt
  | Some _ =>
      let (first, following) := Tags.splitOn 0x0A content in
      renderLines lineId type 0 (first :: following) lines
  end.

End FirstTerminal.

(** ** Sample data for closed examples *)

(** A stream of draws: the [k]-th draw is [k]. *)
Definition counting : Random := fun k => N.of_nat k.

(** A clock: one millisecond passes between readings. *)
Definition ticking : nat -> N := fun k => 1700000000000 + N.of_nat k.

(** A handler whose promise rejects with [new Error(message)]. *)
Definition failing (message : jsstring) : Commands.Handler :=
  fun _ => throw (ErrorObject message).

(** The component as it is mounted. *)
Definition mounted : Terminal.World :=
  {| Terminal.session := Terminal.initialSession; Terminal.random := counting;
     Terminal.clock := ticking; Terminal.painted := []; Terminal.reloads := 0 |}.

(** The line [handleCommand] appends for a result, before its reveal. *)
Definition pendingLine (content : Commands.Content) : Terminal.TerminalLine :=
  {| Terminal.id := js "output-7"; Terminal.type := Terminal.LineType.output;
     Terminal.content := Some content; Terminal.displayedContent := Commands.Text [];
     Terminal.isComplete := false |}.

(** The component about to reveal [content]: busy, the pending line last. *)
Definition revealing (content : Commands.Content) : Terminal.World :=
  {| Terminal.session :=
       {| Terminal.lines := Terminal.welcomeLines ++ [pendingLine content];
          Terminal.input := []; Terminal.history := [js "help"];
          Terminal.historyIndex := -1; Terminal.isProcessing := true |};
     Terminal.random := counting; Terminal.clock := ticking;
     Terminal.painted := []; Terminal.reloads := 0 |}.

Definition sampleReply : Commands.Content :=
  Commands.Segments [ text.primary (js "hi") true; text.default (js "\n") false ].

(** The component with three commands behind it and a draft typed. *)
Definition browsing : Terminal.World :=
  {| Terminal.session :=
       {| Terminal.lines := Terminal.welcomeLines; Terminal.input := js "proj";
          Terminal.history := [js "help"; js "about"; js "sudo"];
          Terminal.historyIndex := -1; Terminal.isProcessing := false |};
     Terminal.random := counting; Terminal.clock := ticking;
     Terminal.painted := []; Terminal.reloads := 0 |}.


(** ** Vocabulary of the properties *)

Import Commands.
Import Terminal.
Import Rendering.

(** The snapshots of the typing loop, by recursion on the segments still
    to type: [typed] are the segments already shown in full. *)
Fixpoint snapshotsFrom (typed todo : FormattedOutput) : list FormattedOutput :=
  match todo with
  | [] => []
  | segment :: rest =>
      map (fun k => typed ++ [withText segment (take k (text segment))])
          (seq 1 (length (text segment)))
      ++ snapshotsFrom (typed ++ [segment]) rest
  end.

(** The text a content shows. *)
Definition contentText (content : Content) : jsstring :=
  match content with
  | Text s => s
  | Segments segments => formatToString segments
  end.




(** Every element stands in [R] to the one after it. *)
Fixpoint ascending {A} (R : A -> A -> Prop) (l : list A) : Prop :=
  match l with
  | x :: (y :: _) as rest => R x y /\ ascending R rest
  | _ => True
  end.

(** A segment sequence without the empty-text segments at its end. *)
Fixpoint withoutTrailingEmpty (segments : FormattedOutput) : FormattedOutput :=
  match segments with
  | [] => []
  | segment :: rest =>
      match withoutTrailingEmpty rest, text segment with
      | [], [] => []
      | kept, _ => segment :: kept
      end
  end.

(** What a content looks like once every code unit of it is revealed. *)
Definition settled (content : Content) : Content :=
  match content with
  | Text s => Text s
  | Segments segments => Segments (withoutTrailingEmpty segments)
  end.


(** The transcripts that successive updaters of the line [lineId] make
    of [ls], one per [setLines]. *)
Fixpoint transcripts (lineId : jsstring) (changes : list (TerminalLine -> TerminalLine))
    (ls : list TerminalLine) : list (list TerminalLine) :=
  match changes with
  | [] => []
  | change :: rest =>
      let next := updateLine lineId change ls in
      next :: transcripts lineId rest next
  end.

(** The updaters of one run of the renderer on [content]. *)
Definition renderChanges (content : Content) : list (TerminalLine -> TerminalLine) :=
  map setDisplayedContent (snapshots content) ++ [setComplete].

(** The component after React was handed the transcripts [frames]. *)
Definition painting (w : World) (frames : list (list TerminalLine)) : World :=
  {| session :=
       {| lines := default (lines (session w)) (last frames);
          input := input (session w); history := history (session w);
          historyIndex := historyIndex (session w);
          isProcessing := isProcessing (session w) |};
     random := random w; clock := clock w;
     painted := painted w ++ frames; reloads := reloads w |}.


Definition keepsIdAndType (change : TerminalLine -> TerminalLine) : Prop :=
  forall l, id (change l) = id l /\ type (change l) = type l.

(** The states of one line under successive updaters. *)
Fixpoint evolve (line : TerminalLine) (changes : list (TerminalLine -> TerminalLine))
  : list TerminalLine :=
  match changes with
  | [] => []
  | change :: rest => change line :: evolve (change line) rest
  end.

(** A content whose reveal ends on the content itself: a plain string,
    or segments of which the last has text. *)
Definition endsWithText (content : Content) : Prop :=
  match content with
  | Text _ => True
  | Segments segments => exists final, last segments = Some final /\ text final <> []
  end.

(** The lines [handleCommand] creates: the echo of the command, the line
    of a result before its reveal, and the line of its own [catch]. *)
Definition echoLine (command : jsstring) (now : N) : TerminalLine :=
  {| id := numberToString now; type := LineType.command; content := Some (Text command);
     displayedContent := Text command; isComplete := true |}.

Definition outputLine (now : N) (ty : LineType.t) (value : option Content) : TerminalLine :=
  {| id := js "output-" ++ numberToString now; type := ty; content := value;
     displayedContent := Text []; isComplete := false |}.

Definition failureLine (now : N) : TerminalLine :=
  {| id := js "error-" ++ numberToString now; type := LineType.error;
     content := Some (Text (js "An error occurred while executing the command."));
     displayedContent := Text (js "An error occurred while executing the command.");
     isComplete := true |}.

(** The component once an accepted command is echoed and dispatched:
    busy, the echo appended, one clock reading taken, the random draws
    where the dispatcher left them. *)
Definition dispatched (command : jsstring) (w : World) (rng' : Random) : World :=
  {| session :=
       {| lines := lines (session w) ++ [echoLine command (clock w 0%nat)];
          input := [];
          history := history (session w) ++ [command];
          historyIndex := -1;
          isProcessing := true |};
     random := rng';
     clock := fun k => clock w (S k);
     painted := painted w ++ [lines (session w) ++ [echoLine command (clock w 0%nat)]];
     reloads := reloads w |}.

(** The component when [handleCommand] returns: [isProcessing] released. *)
Definition released (w : World) : World :=
  {| session :=
       {| lines := lines (session w); input := input (session w);
          history := history (session w); historyIndex := historyIndex (session w);
          isProcessing := false |};
     random := random w; clock := clock w; painted := painted w; reloads := reloads w |}.

(** The history cursor is at the prompt ([-1]) or on an entry. *)
Definition cursorInBounds (s : Session) : Prop :=
  (-1 <= historyIndex s < Z.of_nat (length (history s)))%Z.

(** The component with the prompt showing [value] and the cursor at [index]. *)
Definition recalled (index : Z) (value : jsstring) (w : World) : World :=
  withSession (fun s =>
    {| lines := lines s; input := value; history := history s;
       historyIndex := index; isProcessing := isProcessing s |}) w.

(** Keys pressed one after the other. *)
Fixpoint pressAll `{Host} (keys : list jsstring) (w : World) : option World :=
  match keys with
  | [] => Some w
  | key :: rest =>
      match handleKeyDown key w with
      | Some (_, w') => pressAll rest w'
      | None => None
      end
  end.

(** [node.textContent] *)
Fixpoint textContent (node : Node) : jsstring :=
  match node with
  | TextNode data => data
  | Element _ _ children => flat_map textContent children
  end.

(** A closing tag shows up early in [t ++ close] only inside [t], unless
    a proper part of the tag is both its beginning and its end. *)
Definition unbordered (close : jsstring) : bool :=
  forallb (fun k => negb (startsWith (take k close ++ close) close))
          (seq 1 (length close - 1)).






(** * Properties *)

(** Closed goals are settled by evaluation. *)
Ltac run := vm_compute; reflexivity.
Ltac differ := let E := fresh in intros E; vm_compute in E; discriminate E.

(** Specialise a proved statement to closed arguments and evaluate both
    it and the goal; what is left are its closed hypotheses. *)
Ltac instance_of proof :=
  let W := fresh "W" in
  pose proof proof as W; vm_compute in W; vm_compute; apply W; clear W.

(** Read the fields of a world that an update has rebuilt. *)
Ltac world_simpl :=
  cbn [Terminal.withSession Terminal.session Terminal.random Terminal.clock
       Terminal.painted Terminal.reloads Terminal.lines Terminal.input
       Terminal.history Terminal.historyIndex Terminal.isProcessing fst snd].

(** ** Strings *)

Lemma js_space : js " " = [0x20].
Proof. vm_compute. reflexivity. Qed.

Lemma not_found_suffix :
  js ". Type help for available commands.\n"
  = js ". Type " ++ js "help" ++ js " for available commands.\n".
Proof. vm_compute. reflexivity. Qed.

Lemma not_found_text (command : jsstring) :
  formatToString
    [ text.error (js "Command not found: " ++ command ++ js ". ") false;
      text.default (js "Type ") false;
      text.primary (js "help") true;
      text.default (js " for available commands.\n") false ]
  = js "Command not found: " ++ command ++ js ". Type help for available commands.\n".
Proof.
  rewrite not_found_suffix. unfold formatToString.
  cbn [flat_map text text.error text.default text.primary].
  by rewrite <- !app_assoc.
Qed.

Lemma startsWith_app (s t : jsstring) : startsWith (s ++ t) s = true.
Proof.
  induction s as [|u s IH]; simpl; [done|].
  by rewrite N.eqb_refl, IH.
Qed.

Lemma includes_unfold (s needle : jsstring) :
  includes s needle
  = startsWith s needle || match s with _ :: s' => includes s' needle | [] => false end.
Proof. by destruct s. Qed.

Lemma includes_app (before s after : jsstring) :
  includes (before ++ s ++ after) s = true.
Proof.
  induction before as [|u before IH]; rewrite includes_unfold.
  - simpl. by rewrite startsWith_app.
  - simpl. rewrite IH. apply orb_true_r.
Qed.

Lemma join_splitSpace (s : jsstring) :
  join [0x20] (fst (splitSpace s) :: snd (splitSpace s)) = s.
Proof.
  induction s as [|u s IH]; [done|].
  simpl. destruct (splitSpace s) as [piece pieces]. simpl in IH.
  destruct (u =? 0x20) eqn:Hu.
  - apply N.eqb_eq in Hu. subst u. simpl. by rewrite IH.
  - simpl fst; simpl snd. destruct pieces as [|q pieces].
    + simpl in *. by rewrite IH.
    + change (join [0x20] ((u :: piece) :: q :: pieces))
        with (u :: (piece ++ [0x20] ++ join [0x20] (q :: pieces))).
      by rewrite <- IH.
Qed.

Lemma splitSpace_no_space (s : jsstring) :
  Forall (fun token : jsstring => 0x20 ∉ token) (fst (splitSpace s) :: snd (splitSpace s)).
Proof.
  induction s as [|u s IH]; simpl.
  - repeat constructor. by intros ?%elem_of_nil.
  - destruct (splitSpace s) as [piece pieces]. simpl in IH.
    apply Forall_cons in IH as [Hp Hps].
    destruct (u =? 0x20) eqn:Hu; simpl.
    + repeat constructor; [by intros ?%elem_of_nil|done|done].
    + constructor; [|done]. apply N.eqb_neq in Hu.
      intros [Heq|?]%elem_of_cons; [congruence|by apply Hp].
Qed.

(** ** The dispatcher *)

Section Dispatcher.
Context `{Host}.

Lemma getCommandOutputWith_own (registry : gmap jsstring Handler) (input : jsstring)
    (rng : Random) (command : jsstring) (args : list jsstring) (handler : Handler) :
  splitSpace (toLowerCase (trim input)) = (command, args) ->
  command <> js "clear" -> command <> js "reload" ->
  registry !! command = Some handler ->
  getCommandOutputWith registry input rng
  = match handler args rng with
    | (Normal output, rng') => (Normal (Output output), rng')
    | (Throw thrown, rng') =>
        (Normal (Output
           {| Commands.content := Segments
                [ text.error (js "Error executing command: ") false;
                  text.error (errorMessage thrown) false;
                  text.default (js "\n") false ];
              Commands.error := true |}), rng')
    end.
Proof.
  intros Hsplit Hclear Hreload Hown.
  unfold getCommandOutputWith. rewrite Hsplit.
  destruct (decide (command = js "clear")); [done|].
  destruct (decide (command = js "reload")); [done|].
  unfold getProperty. rewrite Hown.
  unfold tryCatch, mbind, Eff_bind, bind.
  by destruct (handler args rng) as [[output|thrown] rng'].
Qed.

(** C2, amended: [getCommandOutput] trims the input, lowercases all of it
    and cuts it at every single space. The command token followed by the
    argument tokens, joined by single spaces, is the trimmed input
    lowercased, no token holds a space, and the handler registered under
    the command token is called with exactly these argument tokens:
    lowercased, not as typed. *)
Theorem arguments_are_lowercased_pieces (registry : gmap jsstring Handler)
    (input : jsstring) (rng : Random) (command : jsstring) (args : list jsstring)
    (handler : Handler) (output : CommandOutput) (rng' : Random) :
  splitSpace (toLowerCase (trim input)) = (command, args) ->
  command <> js "clear" -> command <> js "reload" ->
  registry !! command = Some handler ->
  handler args rng = (Normal output, rng') ->
  join (js " ") (command :: args) = toLowerCase (trim input)
  /\ Forall (fun token : jsstring => 0x20 ∉ token) (command :: args)
  /\ getCommandOutputWith registry input rng = (Normal (Output output), rng').
Proof.
  intros Hsplit Hclear Hreload Hown Hrun.
  pose proof (join_splitSpace (toLowerCase (trim input))) as Hjoin.
  pose proof (splitSpace_no_space (toLowerCase (trim input))) as Hfree.
  rewrite Hsplit in Hjoin, Hfree. simpl in Hjoin, Hfree.
  split; [by rewrite js_space|]. split; [done|].
  rewrite (getCommandOutputWith_own _ _ _ _ _ _ Hsplit Hclear Hreload Hown).
  by rewrite Hrun.
Qed.

(** C6: an input whose trimmed, lowercased first token is [clear] or
    [reload] resolves to the CLEAR or RELOAD sentinel, whatever the
    registry holds under that name and whatever arguments follow; no
    handler runs (the random draws are untouched). *)
Theorem sentinels_short_circuit (registry : gmap jsstring Handler) (input : jsstring)
    (rng : Random) :
  let command := fst (splitSpace (toLowerCase (trim input))) in
  command = js "clear" \/ command = js "reload" ->
  getCommandOutputWith registry input rng
  = (Normal (Output
       {| Commands.content := Text (if decide (command = js "clear") then js "CLEAR" else js "RELOAD");
          Commands.error := false |}), rng).
Proof.
  intros command Hsentinel. subst command.
  unfold getCommandOutputWith.
  destruct (splitSpace (toLowerCase (trim input))) as [command args].
  cbn [fst] in *.
  destruct (decide (command = js "clear")); [done|].
  destruct (decide (command = js "reload")); [done|].
  by destruct Hsentinel.
Qed.

(** C7: [getCommandOutput] never throws. Whatever the registry and the
    input, it completes normally; and when what the command token finds
    is called and throws, be it a handler of the registry that rejects
    or a member inherited from [Object.prototype] (the one failure the
    shipped registry can raise: [commands['__proto__']] is no
    function), the result has the error flag set and its content is
    "Error executing command: " followed by the failure's message: the
    [message] of a thrown [Error], "Unknown error" for any other thrown
    value. *)
Theorem dispatch_never_throws (registry : gmap jsstring Handler) (input : jsstring)
    (rng : Random) :
  (exists result, fst (getCommandOutputWith registry input rng) = Normal result)
  /\ (forall (command : jsstring) (args : list jsstring) (handler : Handler)
             (thrown : Thrown) (rng' : Random),
        splitSpace (toLowerCase (trim input)) = (command, args) ->
        command <> js "clear" -> command <> js "reload" ->
        registry !! command = Some handler ->
        handler args rng = (Throw thrown, rng') ->
        getCommandOutputWith registry input rng
        = (Normal (Output
             {| Commands.content := Segments
                  [ text.error (js "Error executing command: ") false;
                    text.error match thrown with
                               | ErrorObject message => message
                               | NotAnError => js "Unknown error"
                               end false;
                    text.default (js "\n") false ];
                Commands.error := true |}), rng'))
  /\ (forall (command : jsstring) (args : list jsstring)
             (member : list jsstring -> Completion Foreign) (thrown : Thrown),
        splitSpace (toLowerCase (trim input)) = (command, args) ->
        command <> js "clear" -> command <> js "reload" ->
        registry !! command = None ->
        objectPrototype command = Some member ->
        member args = Throw thrown ->
        getCommandOutputWith registry input rng
        = (Normal (Output
             {| Commands.content := Segments
                  [ text.error (js "Error executing command: ") false;
                    text.error match thrown with
                               | ErrorObject message => message
                               | NotAnError => js "Unknown error"
                               end false;
                    text.default (js "\n") false ];
                Commands.error := true |}), rng)).
Proof.
  split; [|split].
  - unfold getCommandOutputWith.
    destruct (splitSpace (toLowerCase (trim input))) as [command args].
    destruct (decide (command = js "clear")); [by eexists|].
    destruct (decide (command = js "reload")); [by eexists|].
    destruct (getProperty registry command) as [callee|]; [|by eexists].
    unfold tryCatch. destruct (callee args rng) as [[value|thrown] rng']; by eexists.
  - intros command args handler thrown rng' Hsplit Hclear Hreload Hown Hrun.
    rewrite (getCommandOutputWith_own _ _ _ _ _ _ Hsplit Hclear Hreload Hown).
    rewrite Hrun. by destruct thrown.
  - intros command args member thrown Hsplit Hclear Hreload Hown Hinherited Hcall.
    unfold getCommandOutputWith. rewrite Hsplit.
    rewrite decide_False by done. rewrite decide_False by done.
    unfold getProperty. rewrite Hown, Hinherited.
    unfold tryCatch. rewrite Hcall. by destruct thrown.
Qed.

(** C8, amended: when the trimmed, lowercased first token of the input is
    neither [clear] nor [reload], is no key of [commands] and names no
    member inherited from [Object.prototype], [getCommandOutput] returns
    a result with the error flag set whose text is
    "Command not found: <token>. Type help for available commands." with
    the token lowercased (not as typed), and draws no random number. *)
Theorem unknown_command_is_reported (input : jsstring) (rng : Random) :
  let command := fst (splitSpace (toLowerCase (trim input))) in
  command <> js "clear" -> command <> js "reload" ->
  commands !! command = None ->
  objectPrototype command = None ->
  exists segments,
    getCommandOutput input rng
    = (Normal (Output {| Commands.content := Segments segments; Commands.error := true |}), rng)
    /\ formatToString segments
       = js "Command not found: " ++ command ++ js ". Type help for available commands.\n"
    /\ includes (formatToString segments) command = true
    /\ includes (formatToString segments) (js "help") = true.
Proof.
  intros command Hclear Hreload Hown Hinherited. subst command.
  unfold getCommandOutput, getCommandOutputWith.
  destruct (splitSpace (toLowerCase (trim input))) as [command args].
  cbn [fst] in *.
  destruct (decide (command = js "clear")); [done|].
  destruct (decide (command = js "reload")); [done|].
  unfold getProperty. rewrite Hown, Hinherited.
  set (segments :=
         [ text.error (js "Command not found: " ++ command ++ js ". ") false;
           text.default (js "Type ") false;
           text.primary (js "help") true;
           text.default (js " for available commands.\n") false ]).
  exists segments. split; [reflexivity|].
  pose proof (not_found_text command) as Htext. fold segments in Htext.
  rewrite Htext. split; [done|]. split.
  - apply includes_app.
  - rewrite not_found_suffix, !app_assoc, <- (app_assoc _ (js "help")).
    apply includes_app.
Qed.

End Dispatcher.

(** ** Handlers *)

Section Sudo.
Context `{Host}.

Lemma bind_run {S A B} (c : Eff S A) (k : A -> Eff S B) (s s' : S) (a : A) :
  c s = (Normal a, s') -> (c ≫= k) s = k a s'.
Proof. intros Hc. unfold mbind, Eff_bind, bind. by rewrite Hc. Qed.

Lemma randomVersion_returns (rng : Random) :
  exists version rng', randomVersion rng = (Normal version, rng').
Proof. unfold randomVersion. by eexists _, _. Qed.

Lemma packageLines_returns (remaining : nat) (i : N) (rng : Random) :
  exists lines rng', packageLines remaining i rng = (Normal lines, rng').
Proof.
  revert i rng. induction remaining as [|remaining IH]; intros i rng; [by eexists _, _|].
  cbn [packageLines].
  erewrite bind_run by reflexivity.
  destruct (randomVersion_returns (fun k => rng (S k))) as (old & rng1 & Hold).
  erewrite bind_run by exact Hold.
  destruct (randomVersion_returns rng1) as (new & rng2 & Hnew).
  erewrite bind_run by exact Hnew.
  erewrite bind_run by reflexivity.
  destruct (IH (i + 1) (fun k => rng2 (S k))) as (lines & rng3 & Hlines).
  erewrite bind_run by exact Hlines.
  by eexists _, _.
Qed.

Lemma generateUpdateLines_returns (rng : Random) :
  exists lines rng', generateUpdateLines rng = (Normal lines, rng').
Proof.
  unfold generateUpdateLines.
  erewrite bind_run by reflexivity.
  destruct (packageLines_returns (N.to_nat (rng 0%nat mod 8 + 5)) 0 (fun k => rng (S k)))
    as (lines & rng1 & Hlines).
  erewrite bind_run by exact Hlines.
  erewrite bind_run by reflexivity.
  erewrite bind_run by reflexivity.
  by eexists _, _.
Qed.

Lemma sudo_returns (args : list jsstring) (rng : Random) :
  exists segments rng',
    sudo args rng = (Normal {| Commands.content := Segments segments; Commands.error := false |}, rng').
Proof.
  unfold sudo. destruct (isUpdateCommand args).
  - destruct (generateUpdateLines_returns rng) as (lines & rng' & Hlines).
    erewrite bind_run by exact Hlines. by eexists _, _.
  - by eexists _, _.
Qed.

End Sudo.

Section Determinism.
Context `{Host}.

Lemma commands_cases (command : jsstring) (handler : Handler) :
  commands !! command = Some handler ->
  (command = js "sudo" /\ handler = sudo)
  \/ exists output, forall args rng, handler args rng = (Normal output, rng).
Proof.
  unfold commands. intros Hin%elem_of_list_to_map_2.
  repeat (apply elem_of_cons in Hin as [Hin|Hin];
          [injection Hin as -> ->; first [ by left | right; eexists; intros; reflexivity ] | ]).
  by apply elem_of_nil in Hin.
Qed.

Lemma sudo_not_found (args : list jsstring) (rng : Random) :
  isUpdateCommand args = false ->
  exists arg rest,
    args = arg :: rest
    /\ sudo args rng
       = (Normal
            {| Commands.content := Segments
                 [ text.primary (js "[sudo] ") true;
                   text.default (js "password for user: ") false;
                   text.muted (js "***************\n\n") false;
                   text.error (js "sudo: " ++ arg ++ js ": command not found\n") false ];
               Commands.error := false |}, rng).
Proof.
  intros Hupdate. destruct args as [|arg rest].
  - unfold isUpdateCommand in Hupdate. cbn [length] in Hupdate.
    rewrite bool_decide_eq_true_2 in Hupdate by done.
    by rewrite !orb_true_r in Hupdate.
  - exists arg, rest. split; [done|]. unfold sudo. by rewrite Hupdate.
Qed.

(** C4, amended: resolving an input twice gives the same result, and
    draws no random number, unless the input is a [sudo] command on
    the update path (arguments empty, or naming update, upgrade or
    install): that transcript is generated from [Math.random] anew at
    every resolution. *)
Theorem resolution_is_deterministic_without_random (input : jsstring) (rng1 rng2 : Random) :
  (fst (splitSpace (toLowerCase (trim input))) = js "sudo" ->
   isUpdateCommand (snd (splitSpace (toLowerCase (trim input)))) = false) ->
  fst (getCommandOutput input rng1) = fst (getCommandOutput input rng2)
  /\ snd (getCommandOutput input rng1) = rng1.
Proof.
  unfold getCommandOutput, getCommandOutputWith.
  destruct (splitSpace (toLowerCase (trim input))) as [command args]. cbn [fst snd].
  intros Hsudo.
  destruct (decide (command = js "clear")); [done|].
  destruct (decide (command = js "reload")); [done|].
  unfold getProperty.
  destruct (commands !! command) as [handler|] eqn:Hown.
  - unfold tryCatch, mbind, Eff_bind, bind.
    destruct (commands_cases _ _ Hown) as [[-> ->]|[output Hpure]].
    + destruct (sudo_not_found args rng1 (Hsudo eq_refl)) as (arg & rest & -> & ->).
      destruct (sudo_not_found (arg :: rest) rng2 (Hsudo eq_refl)) as (arg' & rest' & [= <- <-] & ->).
      done.
    + by rewrite !Hpure.
  - destruct (objectPrototype command) as [member|]; [|done].
    unfold tryCatch. by destruct (member args).
Qed.

End Determinism.

(** ** The renderer *)

Lemma withText_text (segment : TextSegment) : withText segment (text segment) = segment.
Proof. by destruct segment. Qed.

Lemma withText_withText (segment : TextSegment) (s t : jsstring) :
  withText (withText segment s) t = withText segment t.
Proof. done. Qed.

Lemma withText_take_all (segment : TextSegment) (k : nat) :
  (length (text segment) <= k)%nat -> withText segment (take k (text segment)) = segment.
Proof. intros Hk. rewrite take_ge by done. apply withText_text. Qed.

Lemma appendToLast_snoc (typed : FormattedOutput) (segment : TextSegment) (ch : N) :
  appendToLast (typed ++ [segment]) ch
  = typed ++ [withText segment (text segment ++ [ch])].
Proof.
  unfold appendToLast. rewrite last_snoc, length_app. cbn [length].
  rewrite insert_app_r_alt by lia.
  replace (length typed + 1 - 1 - length typed)%nat with 0%nat by lia. done.
Qed.

Lemma whileLoop_segment (rest : FormattedOutput) :
  (forall typed fuel,
      (S (length rest + length (formatToString rest)) <= fuel)%nat ->
      forall before,
      whileLoop fuel (before ++ rest)
        {| displayedSegments := typed; currentSegmentIndex := length before;
           currentCharIndex := 0 |}
      = Some (snapshotsFrom typed rest)) ->
  forall (segment : TextSegment) (m k : nat) (typed before : FormattedOutput) (fuel : nat),
    m = (length (text segment) - k)%nat ->
    (k = 0 \/ k < length (text segment))%nat ->
    (S m + S (length rest + length (formatToString rest)) <= fuel)%nat ->
    whileLoop fuel (before ++ segment :: rest)
      {| displayedSegments :=
           if decide (k = 0%nat) then typed
           else typed ++ [withText segment (take k (text segment))];
         currentSegmentIndex := length before;
         currentCharIndex := k |}
    = Some (map (fun j => typed ++ [withText segment (take j (text segment))])
                (seq (S k) (length (text segment) - k))
            ++ snapshotsFrom (typed ++ [segment]) rest).
Proof.
  intros IHrest segment m.
  induction m as [|m IHm]; intros k typed before fuel Hm Hk Hfuel;
    (destruct fuel as [|fuel]; [lia|]).
  - (* nothing left of this segment: it is empty *)
    assert (k = 0%nat /\ length (text segment) = 0%nat) as [-> Hlen] by lia.
    cbn [whileLoop]. unfold whileBody. cbn [currentSegmentIndex currentCharIndex displayedSegments].
    rewrite list_lookup_middle by done.
    destruct (text segment) as [|ch chars] eqn:Htext; [|done].
    cbn [lookup list_lookup length]. rewrite !decide_True by done.
    replace (before ++ segment :: rest) with ((before ++ [segment]) ++ rest)
      by by rewrite <- app_assoc.
    replace (S (length before)) with (length (before ++ [segment]))
      by (rewrite length_app; cbn; lia).
    rewrite IHrest by lia.
    replace (withText segment []) with segment
      by (rewrite <- Htext; symmetry; apply withText_text).
    done.
  - assert (k < length (text segment))%nat as Hlt by lia.
    cbn [whileLoop]. unfold whileBody. cbn [currentSegmentIndex currentCharIndex displayedSegments].
    rewrite list_lookup_middle by done.
    destruct (lookup_lt_is_Some_2 (text segment) k Hlt) as [ch Hch].
    rewrite Hch.
    assert ((if decide (k = 0%nat)
             then (if decide (k = 0%nat) then typed
                   else typed ++ [withText segment (take k (text segment))])
                  ++ [withText segment []]
             else (if decide (k = 0%nat) then typed
                   else typed ++ [withText segment (take k (text segment))]))
            = typed ++ [withText segment (take k (text segment))]) as ->.
    { destruct (decide (k = 0%nat)) as [->|]; [by rewrite take_0|done]. }
    rewrite appendToLast_snoc, withText_withText. cbn [text withText].
    rewrite <- (take_S_r _ _ _ Hch).
    replace (length (text segment) - k)%nat with (S (length (text segment) - S k)) by lia.
    cbn [seq map app].
    destruct (decide (length (text segment) <= S k)%nat) as [Hend|Hmore].
    + replace (length (text segment) - S k)%nat with 0%nat by lia. cbn [seq map app].
      replace (before ++ segment :: rest) with ((before ++ [segment]) ++ rest)
        by by rewrite <- app_assoc.
      replace (S (length before)) with (length (before ++ [segment]))
        by (rewrite length_app; cbn; lia).
      rewrite IHrest by lia.
      by rewrite withText_take_all.
    + specialize (IHm (S k) typed before fuel).
      rewrite decide_False in IHm by done.
      rewrite IHm by lia. done.
Qed.

Lemma whileLoop_snapshotsFrom (rest : FormattedOutput) :
  forall typed fuel,
    (S (length rest + length (formatToString rest)) <= fuel)%nat ->
    forall before,
    whileLoop fuel (before ++ rest)
      {| displayedSegments := typed; currentSegmentIndex := length before;
         currentCharIndex := 0 |}
    = Some (snapshotsFrom typed rest).
Proof.
  induction rest as [|segment rest IH]; intros typed fuel Hfuel before.
  - destruct fuel as [|fuel]; [lia|].
    cbn [whileLoop]. unfold whileBody. cbn [currentSegmentIndex].
    rewrite app_nil_r, lookup_ge_None_2 by done. done.
  - pose proof (whileLoop_segment rest IH segment (length (text segment)) 0 typed before fuel)
      as Hsegment.
    rewrite decide_True in Hsegment by done.
    cbn [snapshotsFrom]. rewrite Nat.sub_0_r in Hsegment.
    apply Hsegment; [lia|lia|].
    cbn [length formatToString flat_map] in Hfuel |- *.
    rewrite length_app in Hfuel. unfold formatToString. lia.
Qed.

(** The fuel [segmentSnapshots] gives the loop is enough: the loop ends,
    and its snapshots are those of the recursion on segments. *)
Lemma whileLoop_terminates (content : FormattedOutput) :
  whileLoop (enoughFuel content) content
    {| displayedSegments := []; currentSegmentIndex := 0; currentCharIndex := 0 |}
  = Some (snapshotsFrom [] content).
Proof. exact (whileLoop_snapshotsFrom content [] (enoughFuel content) (le_n _) []). Qed.

Lemma segmentSnapshots_spec (content : FormattedOutput) :
  segmentSnapshots content = snapshotsFrom [] content.
Proof. unfold segmentSnapshots. by rewrite whileLoop_terminates. Qed.

Lemma formatToString_app (a b : FormattedOutput) :
  formatToString (a ++ b) = formatToString a ++ formatToString b.
Proof. apply flat_map_app. Qed.

Lemma formatToString_snoc (typed : FormattedOutput) (segment : TextSegment) :
  formatToString (typed ++ [segment]) = formatToString typed ++ text segment.
Proof. rewrite formatToString_app. unfold formatToString at 2. cbn. by rewrite app_nil_r. Qed.

Lemma seq_plus_shift (b a n : nat) : map (Nat.add a) (seq b n) = seq (a + b) n.
Proof.
  induction a as [|a IH]; cbn [Nat.add].
  - apply map_id.
  - by rewrite <- seq_shift, <- IH, map_map.
Qed.

(** Tick [j] shows the first [j] code units of the text. *)
Lemma snapshotsFrom_text (todo typed : FormattedOutput) :
  map formatToString (snapshotsFrom typed todo)
  = map (fun j => formatToString typed ++ take j (formatToString todo))
        (seq 1 (length (formatToString todo))).
Proof.
  revert typed. induction todo as [|segment rest IH]; intros typed; [done|].
  cbn [snapshotsFrom]. rewrite map_app, map_map, IH.
  change (formatToString (segment :: rest)) with (text segment ++ formatToString rest).
  rewrite length_app, seq_app, map_app. f_equal.
  - apply map_ext_in. intros j [_ Hj]%in_seq.
    rewrite formatToString_snoc. cbn [text withText].
    by rewrite take_app_le by lia.
  - replace (seq (1 + length (text segment)) (length (formatToString rest)))
      with (map (Nat.add (length (text segment))) (seq 1 (length (formatToString rest))))
      by (rewrite (seq_plus_shift 1 (length (text segment))); f_equal; lia).
    rewrite map_map. apply map_ext. intros j.
    rewrite formatToString_snoc, take_app_add. by rewrite app_assoc.
Qed.

Lemma stringSnapshots_spec (rest shown : jsstring) :
  stringSnapshots shown rest
  = map (fun j => shown ++ take j rest) (seq 1 (length rest)).
Proof.
  revert shown. induction rest as [|ch rest IH]; intros shown; [done|].
  cbn [stringSnapshots length seq map]. rewrite IH. f_equal.
  rewrite <- (seq_shift (length rest) 1), map_map. apply map_ext. intros j.
  cbn [take]. by rewrite <- app_assoc.
Qed.

(** One snapshot per code unit, the [j]-th showing the first [j]. *)
Lemma snapshots_text (content : Content) :
  map contentText (snapshots content)
  = map (fun j => take j (contentText content)) (seq 1 (length (contentText content))).
Proof.
  destruct content as [contentStr|segments]; unfold snapshots; rewrite map_map.
  - rewrite stringSnapshots_spec. by rewrite map_map.
  - cbn [contentText]. rewrite segmentSnapshots_spec.
    change (fun x => formatToString x) with formatToString.
    etransitivity; [|apply (snapshotsFrom_text segments [])]. done.
Qed.

Lemma snapshots_length (content : Content) :
  length (snapshots content) = length (contentText content).
Proof.
  rewrite <- (length_map contentText), snapshots_text, length_map. apply length_seq.
Qed.




Lemma ascending_lookup {A} (R : A -> A -> Prop) (l : list A) (i : nat) (x y : A) :
  ascending R l -> l !! i = Some x -> l !! S i = Some y -> R x y.
Proof.
  revert i. induction l as [|a [|b l] IH]; intros i Hl Hx Hy; [done|done|].
  destruct Hl as [Hab Hl]. destruct i as [|i].
  - by injection Hx as <-; injection Hy as <-.
  - by apply (IH i).
Qed.





Lemma snapshotsFrom_last (todo typed : FormattedOutput) :
  last (snapshotsFrom typed todo)
  = match withoutTrailingEmpty todo with
    | [] => None
    | kept => Some (typed ++ kept)
    end.
Proof.
  revert typed. induction todo as [|segment rest IH]; intros typed; [done|].
  cbn [snapshotsFrom withoutTrailingEmpty]. rewrite last_app, IH.
  destruct (withoutTrailingEmpty rest) as [|kept0 kept].
  - destruct (text segment) as [|ch chars] eqn:Htext; [done|].
    rewrite <- Htext.
    destruct (length (text segment)) as [|n] eqn:Hlen; [by rewrite Htext in Hlen|].
    rewrite seq_S, map_app. cbn [map]. rewrite last_snoc.
    rewrite withText_take_all by (cbn; lia). done.
  - by rewrite <- app_assoc.
Qed.

Lemma withoutTrailingEmpty_nil (segments : FormattedOutput) :
  withoutTrailingEmpty segments = [] <-> formatToString segments = [].
Proof.
  induction segments as [|segment rest IH]; [done|].
  cbn [withoutTrailingEmpty].
  change (formatToString (segment :: rest)) with (text segment ++ formatToString rest).
  destruct (withoutTrailingEmpty rest) as [|kept0 kept], (text segment) as [|ch chars];
    split; try done.
  - intros _. cbn. by apply IH.
  - intros Hnil. cbn in Hnil. apply IH in Hnil. done.
Qed.

(** Nothing is dropped from a sequence whose last segment has text. *)
Lemma withoutTrailingEmpty_id (segments : FormattedOutput) (final : TextSegment) :
  last segments = Some final -> text final <> [] ->
  withoutTrailingEmpty segments = segments.
Proof.
  induction segments as [|segment [|segment' rest] IH]; intros Hlast Hfinal; [done| |].
  - injection Hlast as ->. cbn. by destruct (text final).
  - rewrite last_cons_cons in Hlast. specialize (IH Hlast Hfinal).
    cbn [withoutTrailingEmpty] in IH |- *. rewrite IH.
    by destruct (text segment).
Qed.

Lemma withoutTrailingEmpty_text (segments : FormattedOutput) :
  formatToString (withoutTrailingEmpty segments) = formatToString segments.
Proof.
  induction segments as [|segment rest IH]; [done|].
  cbn [withoutTrailingEmpty].
  change (formatToString (segment :: rest)) with (text segment ++ formatToString rest).
  destruct (withoutTrailingEmpty rest) as [|kept0 kept] eqn:Hkept.
  - rewrite <- IH. destruct (text segment) as [|ch chars] eqn:Htext; [done|].
    change (formatToString [segment]) with (text segment ++ []). by rewrite Htext.
  - rewrite <- IH.
    assert (formatToString (segment :: kept0 :: kept)
            = text segment ++ formatToString (kept0 :: kept)) as Hcons by done.
    by destruct (text segment).
Qed.


Lemma snapshots_last (content : Content) :
  last (snapshots content)
  = if decide (contentText content = []) then None else Some (settled content).
Proof.
  destruct content as [contentStr|segments]; unfold snapshots; rewrite fmap_last.
  - rewrite stringSnapshots_spec. cbn [contentText settled].
    destruct contentStr as [|ch rest]; [done|].
    rewrite decide_False by done.
    cbn [length]. rewrite seq_S, map_app. cbn [map]. rewrite last_snoc.
    cbn [fmap option_fmap option_map app]. by rewrite take_ge by (cbn; lia).
  - rewrite segmentSnapshots_spec, snapshotsFrom_last. cbn [contentText settled].
    pose proof (withoutTrailingEmpty_nil segments) as Hnil.
    destruct (withoutTrailingEmpty segments) as [|kept0 kept].
    + rewrite decide_True by by apply Hnil. done.
    + rewrite decide_False; [done|]. intros Hempty. by apply Hnil in Hempty.
Qed.

Lemma painting_nil (w : World) : painting w [] = w.
Proof. destruct w as [[] ? ? ? ?]. unfold painting. cbn. by rewrite app_nil_r. Qed.

Lemma painting_cons (w : World) (frame : list TerminalLine) (frames : list (list TerminalLine)) :
  painting (painting w [frame]) frames = painting w (frame :: frames).
Proof.
  unfold painting.
  cbn [session lines input history historyIndex isProcessing random clock painted reloads].
  rewrite <- app_assoc. cbn [app].
  destruct frames as [|frame' frames]; [done|]. rewrite last_cons_cons.
  destruct (last (frame' :: frames)) eqn:Hlast; [done|]. by apply last_None in Hlast.
Qed.

Lemma setLines_run (update : list TerminalLine -> list TerminalLine) (w : World) :
  setLines update w = (Normal tt, painting w [update (lines (session w))]).
Proof. done. Qed.

Lemma publish_run (lineId : jsstring) (shown : list Content) (w : World) :
  publish lineId shown w
  = (Normal tt,
     painting w (transcripts lineId (map setDisplayedContent shown) (lines (session w)))).
Proof.
  revert w. induction shown as [|value rest IH]; intros w.
  - cbn. by rewrite painting_nil.
  - cbn [publish map transcripts].
    erewrite bind_run by apply setLines_run.
    rewrite IH. by rewrite painting_cons.
Qed.

Lemma transcripts_app (lineId : jsstring) (a b : list (TerminalLine -> TerminalLine))
    (ls : list TerminalLine) :
  transcripts lineId (a ++ b) ls
  = transcripts lineId a ls
    ++ transcripts lineId b (default ls (last (transcripts lineId a ls))).
Proof.
  revert ls. induction a as [|change a IH]; intros ls; [done|].
  cbn [app transcripts]. rewrite IH. cbn [app]. do 3 f_equal.
  destruct (transcripts lineId a (updateLine lineId change ls)) as [|frame frames] eqn:Hrest;
    [done|].
  rewrite last_cons_cons.
  destruct (last (frame :: frames)) eqn:Hlast; [done|]. by apply last_None in Hlast.
Qed.

Lemma painting_app (w : World) (a b : list (list TerminalLine)) :
  painting (painting w a) b = painting w (a ++ b).
Proof.
  unfold painting.
  cbn [session lines input history historyIndex isProcessing random clock painted reloads].
  rewrite <- app_assoc, last_app. by destruct (last b).
Qed.

(** The renderer on a defined content: it completes normally, and what
    it does to the component is hand React one transcript per updater. *)
Lemma renderOutputLine_run (lineId : jsstring) (content : Content) (ty : LineType.t)
    (w : World) :
  renderOutputLine lineId (Some content) ty w
  = (Normal tt,
     painting w (transcripts lineId (renderChanges content) (lines (session w)))).
Proof.
  unfold renderOutputLine, renderChanges.
  erewrite bind_run by apply publish_run.
  rewrite setLines_run, painting_app, transcripts_app. done.
Qed.

Lemma updateLine_found (lineId : jsstring) (change : TerminalLine -> TerminalLine)
    (ls : list TerminalLine) (index : nat) (line : TerminalLine) :
  list_find (fun l => id l = lineId) ls = Some (index, line) ->
  updateLine lineId change ls = <[index := change line]> ls.
Proof. intros Hfind. unfold updateLine. by rewrite Hfind. Qed.

Lemma updateLine_shape (lineId : jsstring) (change : TerminalLine -> TerminalLine)
    (ls : list TerminalLine) :
  keepsIdAndType change ->
  map id (updateLine lineId change ls) = map id ls
  /\ map type (updateLine lineId change ls) = map type ls.
Proof.
  intros Hkeeps. unfold updateLine.
  destruct (list_find _ ls) as [[index line]|] eqn:Hfind; [|done].
  apply list_find_Some in Hfind as (Hline & _ & _).
  destruct (Hkeeps line) as [Hid Htype].
  split.
  - change (map id ?l) with (id <$> l). rewrite list_fmap_insert, Hid.
    apply list_insert_id. by rewrite list_lookup_fmap, Hline.
  - change (map type ?l) with (type <$> l). rewrite list_fmap_insert, Htype.
    apply list_insert_id. by rewrite list_lookup_fmap, Hline.
Qed.

Lemma transcripts_shape (lineId : jsstring) (changes : list (TerminalLine -> TerminalLine))
    (ls : list TerminalLine) :
  Forall keepsIdAndType changes ->
  Forall (fun frame => map id frame = map id ls /\ map type frame = map type ls)
         (transcripts lineId changes ls).
Proof.
  intros Hkeep. revert ls. induction Hkeep as [|change changes Hchange _ IH]; intros ls.
  - constructor.
  - cbn [transcripts].
    destruct (updateLine_shape lineId change ls Hchange) as [Hid Htype].
    constructor; [done|]. rewrite <- Hid, <- Htype. apply IH.
Qed.

Lemma renderChanges_keep (content : Content) : Forall keepsIdAndType (renderChanges content).
Proof.
  unfold renderChanges. apply Forall_app. split.
  - apply Forall_forall. intros change (value & <- & _)%list_elem_of_In%in_map_iff. done.
  - by repeat constructor.
Qed.

Lemma find_after_update (lineId : jsstring) (ls : list TerminalLine) (index : nat)
    (line line' : TerminalLine) :
  list_find (fun l => id l = lineId) ls = Some (index, line) ->
  id line' = lineId ->
  list_find (fun l => id l = lineId) (<[index := line']> ls) = Some (index, line').
Proof.
  intros (Hline & Hid & Hfirst)%list_find_Some Hid'.
  apply list_find_Some. split; [|split; [done|]].
  - apply list_lookup_insert_eq. by eapply lookup_lt_Some.
  - intros j other Hother Hj.
    rewrite list_lookup_insert_ne in Hother by lia. by eapply Hfirst.
Qed.


Lemma last_cons_default {A} (d x : A) (l : list A) :
  default d (last (x :: l)) = default x (last l).
Proof.
  destruct l as [|y l]; [done|]. rewrite last_cons_cons.
  destruct (last (y :: l)) eqn:Hlast; [done|]. by apply last_None in Hlast.
Qed.


Lemma surrogates_disjoint (u : N) : isLowSurrogate u = true -> isHighSurrogate u = false.
Proof.
  unfold isLowSurrogate, isHighSurrogate.
  intros [Hlow _]%andb_true_iff. apply N.leb_le in Hlow.
  apply andb_false_iff. right. apply N.leb_gt. lia.
Qed.

(** A prefix of a string of whole code points is itself made of whole
    code points unless it stops on the leading half of a pair. *)
Lemma wholeCodePoints_take (n : nat) :
  forall (s : jsstring) (j : nat) (u : N),
    (length s <= n)%nat ->
    wholeCodePoints s = true ->
    s !! j = Some u ->
    wholeCodePoints (take (S j) s) = negb (isHighSurrogate u).
Proof.
  induction n as [|n IH]; intros s j u Hlen Hwhole Hu.
  - destruct s; [done|cbn in Hlen; lia].
  - destruct s as [|u0 rest]; [done|]. cbn [length] in Hlen.
    cbn [wholeCodePoints] in Hwhole.
    destruct (isHighSurrogate u0) eqn:Hhigh.
    + destruct rest as [|v rest']; [done|].
      apply andb_true_iff in Hwhole as [Hlow Hrest].
      destruct j as [|[|j]].
      * injection Hu as <-. cbn. by rewrite Hhigh.
      * injection Hu as <-. cbn. rewrite Hhigh, Hlow.
        by rewrite (surrogates_disjoint _ Hlow).
      * cbn [take wholeCodePoints]. rewrite Hhigh, Hlow. cbn [andb].
        apply IH; [cbn [length] in Hlen; lia|done|done].
    + apply andb_true_iff in Hwhole as [Hlow Hrest].
      destruct j as [|j].
      * injection Hu as <-. cbn. by rewrite Hhigh, Hlow.
      * cbn [take wholeCodePoints]. rewrite Hhigh, Hlow. cbn [andb negb].
        apply IH; [lia|done|done].
Qed.

Lemma snapshots_lookup_text (content shown : Content) (j : nat) :
  snapshots content !! j = Some shown ->
  contentText shown = take (S j) (contentText content)
  /\ (j < length (contentText content))%nat.
Proof.
  intros Hshown.
  assert (map contentText (snapshots content) !! j = Some (contentText shown)) as Htext.
  { change (map contentText ?l) with (contentText <$> l).
    by rewrite list_lookup_fmap, Hshown. }
  rewrite snapshots_text in Htext.
  change (map ?f ?l) with (f <$> l) in Htext.
  rewrite list_lookup_fmap in Htext.
  destruct (seq 1 (length (contentText content)) !! j) as [k|] eqn:Hk; [|done].
  apply lookup_seq in Hk as [-> Hj]. cbn in Htext. by injection Htext as ->.
Qed.

(** C3, amended: the renderer advances by one UTF-16 code unit per tick.
    Tick [j] (counted from 0) shows exactly the first [j + 1] code units
    of the text; when the text is made of whole code points, what a tick
    shows is made of whole code points exactly when the code unit it
    added is not the leading half of a surrogate pair. A glyph outside
    the Basic Multilingual Plane is therefore shown as a lone leading
    surrogate for one tick, and every tick of a text without such glyphs
    shows whole code points only. *)
Theorem reveal_advances_by_code_unit (content shown : Content) (j : nat) :
  wholeCodePoints (contentText content) = true ->
  snapshots content !! j = Some shown ->
  contentText shown = take (S j) (contentText content)
  /\ exists u, contentText content !! j = Some u
       /\ wholeCodePoints (contentText shown) = negb (isHighSurrogate u).
Proof.
  intros Hwhole Hshown.
  destruct (snapshots_lookup_text _ _ _ Hshown) as [Htext Hj].
  split; [done|].
  destruct (lookup_lt_is_Some_2 _ _ Hj) as [u Hu].
  exists u. split; [done|]. rewrite Htext.
  by apply (wholeCodePoints_take (length (contentText content))).
Qed.

(** ** What the dispatcher hands to the renderer *)

#[global] Instance Output_inj : Inj (=) (=) Output.
Proof. by intros ? ? [= ->]. Qed.

Lemma Normal_inv {S A} (a b : A) (s t : S) : (Normal a, s) = (Normal b, t) -> a = b.
Proof. by intros [= -> _]. Qed.

Section Handover.
Context `{Host}.

Lemma generateUpdateLines_last (rng rng' : Random) (lines : FormattedOutput) :
  generateUpdateLines rng = (Normal lines, rng') ->
  exists final, last lines = Some final /\ text final <> [].
Proof.
  unfold generateUpdateLines.
  erewrite bind_run by reflexivity.
  destruct (packageLines_returns (N.to_nat (rng 0%nat mod 8 + 5)) 0 (fun k => rng (S k)))
    as (packages & rng1 & Hpackages).
  erewrite bind_run by exact Hpackages.
  do 2 (erewrite bind_run by reflexivity).
  intros [= <- _]. rewrite last_app. cbn [last app].
  eexists. split; [reflexivity|]. vm_compute. discriminate.
Qed.

Lemma handlers_end_with_text (command : jsstring) (handler : Handler)
    (args : list jsstring) (rng rng' : Random) (output : CommandOutput) :
  commands !! command = Some handler ->
  handler args rng = (Normal output, rng') ->
  endsWithText (Commands.content output).
Proof.
  unfold commands. intros Hin%elem_of_list_to_map_2 Hrun.
  repeat (apply elem_of_cons in Hin as [Hin|Hin];
          [injection Hin as -> ->;
           lazymatch type of Hrun with
           | sudo _ _ = _ => idtac
           | _ =>
               apply Normal_inv in Hrun; subst output;
               first [ exact I
                     | eexists; split; [vm_compute; reflexivity|vm_compute; discriminate] ]
           end
          | ]);
    [|by apply elem_of_nil in Hin].
  (* sudo *)
  unfold sudo in Hrun. destruct (isUpdateCommand args).
  - destruct (generateUpdateLines_returns rng) as (lines & rng1 & Hlines).
    erewrite bind_run in Hrun by exact Hlines. apply Normal_inv in Hrun. subst output.
    destruct (generateUpdateLines_last _ _ _ Hlines) as (final & Hlast & Htext).
    exists final. split; [|done].
    unfold combine. cbn [concat]. rewrite app_nil_r, !last_app, Hlast. done.
  - apply Normal_inv in Hrun. subst output. eexists. split; [reflexivity|].
    cbn [text text.error]. destruct (js "sudo: ") eqn:E; [by vm_compute in E|done].
Qed.

Lemma dispatched_content_ends_with_text (input : jsstring) (rng rng' : Random)
    (output : CommandOutput) :
  getCommandOutput input rng = (Normal (Output output), rng') ->
  endsWithText (Commands.content output).
Proof.
  unfold getCommandOutput, getCommandOutputWith.
  destruct (splitSpace (toLowerCase (trim input))) as [command args].
  destruct (decide (command = js "clear")); [by intros <-%Normal_inv%(inj Output)|].
  destruct (decide (command = js "reload")); [by intros <-%Normal_inv%(inj Output)|].
  unfold getProperty.
  destruct (commands !! command) as [handler|] eqn:Hown.
  - unfold tryCatch, mbind, Eff_bind, bind.
    destruct (handler args rng) as [[value|thrown] rng1] eqn:Hrun.
    + intros <-%Normal_inv%(inj Output). by eapply handlers_end_with_text.
    + intros <-%Normal_inv%(inj Output). eexists. split; [reflexivity|]. vm_compute. discriminate.
  - destruct (objectPrototype command) as [member|].
    + unfold tryCatch. destruct (member args); [done|].
      intros <-%Normal_inv%(inj Output). eexists. split; [reflexivity|]. vm_compute. discriminate.
    + intros <-%Normal_inv%(inj Output). eexists. split; [reflexivity|]. cbn [text text.default].
      vm_compute. discriminate.
Qed.

(** X1: on every result the dispatcher itself produces, the last tick of
    the reveal shows the content exactly: each handler, the failure
    reply and the unknown-command reply end in a segment with text. *)
Theorem dispatched_content_is_revealed_exactly (input : jsstring) (rng rng' : Random)
    (output : CommandOutput) :
  getCommandOutput input rng = (Normal (Output output), rng') ->
  contentText (Commands.content output) <> [] ->
  last (snapshots (Commands.content output)) = Some (Commands.content output).
Proof.
  intros Hresolve Hsome.
  rewrite snapshots_last, decide_False by done. f_equal.
  pose proof (dispatched_content_ends_with_text _ _ _ _ Hresolve) as Hends.
  destruct (Commands.content output) as [contentStr|segments]; [done|].
  destruct Hends as (final & Hlast & Htext). cbn.
  by rewrite (withoutTrailingEmpty_id _ _ Hlast Htext).
Qed.

End Handover.

(** ** The component *)

Section Component.
Context `{Host}.

(** C9: while [isProcessing] holds, and for an input that is blank after
    trimming, [handleCommand] returns at its guard: the component is left
    exactly as it was, so no echo line is created (the transcript keeps
    its length), the history keeps its entries, and React is handed
    nothing. *)
Theorem busy_or_blank_submit_is_noop (command : jsstring) (w : World) :
  isProcessing (session w) = true \/ trim command = [] ->
  handleCommand command w = (Normal tt, w)
  /\ length (lines (session (snd (handleCommand command w)))) = length (lines (session w))
  /\ history (session (snd (handleCommand command w))) = history (session w)
  /\ painted (snd (handleCommand command w)) = painted w.
Proof.
  intros Hguard.
  assert (handleCommand command w = (Normal tt, w)) as Hrun.
  { unfold handleCommand. erewrite bind_run by reflexivity.
    destruct Hguard as [Hbusy|Hblank].
    - rewrite Hbusy. by rewrite orb_true_r.
    - by rewrite bool_decide_eq_true_2. }
  by rewrite Hrun.
Qed.

Lemma sudo_resolves (input : jsstring) (rng : Random) :
  fst (splitSpace (toLowerCase (trim input))) = js "sudo" ->
  exists segments rng',
    getCommandOutput input rng
    = (Normal (Output {| Commands.content := Segments segments; Commands.error := false |}), rng').
Proof.
  intros Htoken.
  destruct (splitSpace (toLowerCase (trim input))) as [command args] eqn:Hsplit.
  cbn [fst] in Htoken. subst command.
  destruct (sudo_returns args rng) as (segments & rng' & Hsudo).
  exists segments, rng'. unfold getCommandOutput.
  assert (js "sudo" <> js "clear") as Hclear
    by (let E := fresh in intros E; vm_compute in E; discriminate E).
  assert (js "sudo" <> js "reload") as Hreload
    by (let E := fresh in intros E; vm_compute in E; discriminate E).
  rewrite (getCommandOutputWith_own commands input rng (js "sudo") args sudo Hsplit
             Hclear Hreload eq_refl).
  by rewrite Hsudo.
Qed.

Lemma handleCommand_sudo (input : jsstring) (w : World) :
  isProcessing (session w) = false ->
  trim input <> [] ->
  fst (splitSpace (toLowerCase (trim input))) = js "sudo" ->
  fst (handleCommand input w) = Normal tt
  /\ map type (lines (session (snd (handleCommand input w))))
     = map type (lines (session w)) ++ [LineType.command; LineType.output].
Proof.
  intros Hidle Hinput Htoken.
  destruct (sudo_resolves input (random w) Htoken) as (segments & rng' & Hresolve).
  unfold handleCommand. erewrite bind_run by reflexivity.
  rewrite Hidle, bool_decide_eq_false_2 by done. cbn [orb].
  do 6 (erewrite bind_run by reflexivity; world_simpl).
  unfold tryFinally, tryCatch.
  erewrite bind_run.
  2:{ unfold withRandom. world_simpl. rewrite Hresolve. reflexivity. }
  erewrite bind_run by reflexivity.
  rewrite decide_False by done. rewrite decide_False by done.
  do 2 (erewrite bind_run by reflexivity; world_simpl).
  rewrite renderOutputLine_run. world_simpl.
  split; [done|]. unfold setIsProcessing, modify, painting. world_simpl.
  match goal with
  | |- context [transcripts ?lineId ?changes ?ls] =>
      pose proof (transcripts_shape lineId changes ls (renderChanges_keep _)) as Hshape;
      destruct (last (transcripts lineId changes ls)) as [frame|] eqn:Hlast
  end.
  - apply last_Some_elem_of in Hlast.
    rewrite Forall_forall in Hshape. destruct (Hshape _ Hlast) as [_ Htypes].
    cbn [default from_option snd Datatypes.id]. rewrite Htypes.
    rewrite !map_app, <- app_assoc. done.
  - apply last_None in Hlast. unfold renderChanges in Hlast.
    rewrite transcripts_app in Hlast. by apply app_eq_nil in Hlast as [_ ?].
Qed.

(** C10: whatever its arguments, the handler registered as [sudo]
    resolves with the error flag false. When the arguments name none of
    update, upgrade, install (and are not empty), the content ends in
    the text "sudo: <first argument>: command not found". Submitted to
    an idle terminal, a [sudo] command adds its echo and one line of
    kind output, never of kind error. *)
Theorem sudo_is_never_an_error (args : list jsstring) (rng : Random)
    (input : jsstring) (w : World) :
  commands !! js "sudo" = Some sudo
  /\ (exists segments rng',
        sudo args rng
        = (Normal {| Commands.content := Segments segments; Commands.error := false |}, rng')
        /\ errorOf (Output {| Commands.content := Segments segments;
                             Commands.error := false |}) = false
        /\ (isUpdateCommand args = false ->
            exists arg rest,
              args = arg :: rest
              /\ segments
                 = [ text.primary (js "[sudo] ") true;
                     text.default (js "password for user: ") false;
                     text.muted (js "***************\n\n") false;
                     text.error (js "sudo: " ++ arg ++ js ": command not found\n") false ]))
  /\ (isProcessing (session w) = false ->
      trim input <> [] ->
      fst (splitSpace (toLowerCase (trim input))) = js "sudo" ->
      fst (handleCommand input w) = Normal tt
      /\ map type (lines (session (snd (handleCommand input w))))
         = map type (lines (session w)) ++ [LineType.command; LineType.output]).
Proof.
  split; [reflexivity|]. split; [|apply handleCommand_sudo].
  destruct (sudo_returns args rng) as (segments & rng' & Hsudo).
  exists segments, rng'. split; [done|]. split; [done|].
  intros Hupdate.
  destruct (sudo_not_found args rng Hupdate) as (arg & rest & -> & Hnotfound).
  exists arg, rest. split; [done|]. rewrite Hnotfound in Hsudo. by injection Hsudo.
Qed.

End Component.

(** ** The frames of a reveal *)

Lemma transcripts_length (lineId : jsstring) (changes : list (TerminalLine -> TerminalLine))
    (ls : list TerminalLine) :
  length (transcripts lineId changes ls) = length changes.
Proof.
  revert ls. induction changes as [|change changes IH]; intros ls; [done|].
  cbn [transcripts length]. by rewrite IH.
Qed.

Lemma renderChanges_length (value : Content) :
  length (renderChanges value) = S (length (contentText value)).
Proof.
  unfold renderChanges. rewrite length_app, length_map, snapshots_length. cbn [length]. lia.
Qed.

Lemma transcripts_frames (lineId : jsstring) (changes : list (TerminalLine -> TerminalLine))
    (ls : list TerminalLine) (index : nat) (line : TerminalLine) :
  Forall keepsIdAndType changes ->
  list_find (fun l => id l = lineId) ls = Some (index, line) ->
  transcripts lineId changes ls = map (fun l => <[index := l]> ls) (evolve line changes).
Proof.
  intros Hkeep. revert ls line.
  induction Hkeep as [|change changes Hchange _ IH]; intros ls line Hfind; [done|].
  cbn [transcripts evolve map].
  rewrite (updateLine_found _ _ _ _ _ Hfind). f_equal.
  assert (id (change line) = lineId) as Hid.
  { destruct (Hchange line) as [-> _]. by apply list_find_Some in Hfind as (_ & ? & _). }
  rewrite (IH _ _ (find_after_update _ _ _ _ _ Hfind Hid)).
  apply map_ext. intros l. apply list_insert_insert_eq.
Qed.

Lemma transcripts_absent (lineId : jsstring) (changes : list (TerminalLine -> TerminalLine))
    (ls : list TerminalLine) :
  list_find (fun l => id l = lineId) ls = None ->
  transcripts lineId changes ls = replicate (length changes) ls.
Proof.
  intros Hfind. induction changes as [|change changes IH]; [done|].
  cbn [transcripts length replicate]. unfold updateLine. rewrite Hfind. by rewrite IH.
Qed.

Lemma evolve_render_last (line : TerminalLine) (shown : list Content) :
  last (evolve line (map setDisplayedContent shown ++ [setComplete]))
  = Some {| id := id line; type := type line; content := content line;
            displayedContent := default (displayedContent line) (last shown);
            isComplete := true |}.
Proof.
  revert line. induction shown as [|value rest IH]; intros line; [done|].
  cbn [map app evolve].
  destruct (evolve (setDisplayedContent value line) (map setDisplayedContent rest ++ [setComplete]))
    as [|l ls] eqn:Hevolve.
  { specialize (IH (setDisplayedContent value line)). by rewrite Hevolve in IH. }
  rewrite last_cons_cons, <- Hevolve, IH.
  cbn [setDisplayedContent id type content displayedContent].
  by rewrite last_cons_default.
Qed.

Lemma find_appended (lineId : jsstring) (ls : list TerminalLine) (line : TerminalLine) :
  Forall (fun l => id l <> lineId) ls ->
  id line = lineId ->
  list_find (fun l => id l = lineId) (ls ++ [line]) = Some (length ls, line).
Proof.
  intros Hfresh Hid.
  rewrite list_find_app_r by by apply list_find_None.
  cbn [list_find]. by rewrite decide_True.
Qed.

(** The reveal of a line appended under a fresh id ends on that line,
    complete, after the lines that were there. *)
Lemma reveal_appended (lineId : jsstring) (value : Content) (ls : list TerminalLine)
    (line : TerminalLine) :
  Forall (fun l => id l <> lineId) ls ->
  id line = lineId ->
  last (transcripts lineId (renderChanges value) (ls ++ [line]))
  = Some (ls ++ [ {| id := id line; type := type line; content := content line;
                     displayedContent :=
                       default (displayedContent line) (last (snapshots value));
                     isComplete := true |} ]).
Proof.
  intros Hfresh Hid.
  rewrite (transcripts_frames _ _ _ _ _ (renderChanges_keep value)
             (find_appended _ _ _ Hfresh Hid)).
  change (map ?f ?l) with (f <$> l). rewrite fmap_last.
  unfold renderChanges. rewrite evolve_render_last. cbn [fmap option_fmap option_map].
  f_equal. replace (length ls) with (length ls + 0)%nat by lia.
  by rewrite insert_app_r.
Qed.

Lemma evolve_keeps (line : TerminalLine) (changes : list (TerminalLine -> TerminalLine)) :
  Forall (fun change => forall l, id (change l) = id l /\ type (change l) = type l
                                  /\ content (change l) = content l) changes ->
  Forall (fun l => id l = id line /\ type l = type line /\ content l = content line)
         (evolve line changes).
Proof.
  intros Hkeep. revert line. induction Hkeep as [|change changes Hchange _ IH]; intros line.
  - constructor.
  - cbn [evolve]. destruct (Hchange line) as (Hid & Htype & Hcontent).
    constructor; [done|].
    eapply Forall_impl; [apply IH|]. cbn beta. intros l (-> & -> & ->). done.
Qed.

Lemma renderChanges_keep_content (value : Content) :
  Forall (fun change => forall l, id (change l) = id l /\ type (change l) = type l
                                  /\ content (change l) = content l) (renderChanges value).
Proof.
  unfold renderChanges. apply Forall_app. split.
  - apply Forall_forall. intros change (shown & <- & _)%list_elem_of_In%in_map_iff. done.
  - by repeat constructor.
Qed.

(** X11: [renderOutputLine] on an id that no line of the transcript
    carries ([findIndex] gives -1 at every update) still runs the whole
    typing loop: React is handed one transcript per code unit of the
    content and one more for the completion, each equal to the
    transcript as it was, and the component's state is left unchanged. *)
Theorem reveal_of_absent_line_changes_nothing (lineId : jsstring) (value : Content)
    (ty : LineType.t) (w : World) :
  Forall (fun l => id l <> lineId) (lines (session w)) ->
  renderOutputLine lineId (Some value) ty w
  = (Normal tt,
     painting w (replicate (S (length (contentText value))) (lines (session w))))
  /\ session (snd (renderOutputLine lineId (Some value) ty w)) = session w.
Proof.
  intros Habsent. apply (list_find_None (fun l => id l = lineId)) in Habsent.
  rewrite renderOutputLine_run, (transcripts_absent _ _ _ Habsent), renderChanges_length.
  split; [done|]. unfold painting. cbn [snd session].
  assert (default (lines (session w))
            (last (replicate (S (length (contentText value))) (lines (session w))))
          = lines (session w)) as ->.
  { destruct (last _) as [frame|] eqn:Hlast; [|done].
    apply last_Some_elem_of, elem_of_replicate in Hlast as [-> _]. done. }
  by destruct (session w).
Qed.

(** X12: a reveal writes to one line only. Every transcript
    [renderOutputLine] hands to React is the transcript it started from
    with the first line carrying the id replaced; the replacement keeps
    that line's id, kind and content (only [displayedContent] and
    [isComplete] move), and every other line, also a later one with the
    same id, is as it was. *)
Theorem reveal_touches_only_its_line (lineId : jsstring) (value : Content)
    (ty : LineType.t) (w : World) (index : nat) (line : TerminalLine) :
  list_find (fun l => id l = lineId) (lines (session w)) = Some (index, line) ->
  exists frames,
    renderOutputLine lineId (Some value) ty w = (Normal tt, painting w frames)
    /\ Forall (fun frame =>
                 exists shown,
                   frame = <[index := shown]> (lines (session w))
                   /\ id shown = id line /\ type shown = type line
                   /\ content shown = content line)
              frames.
Proof.
  intros Hfind. eexists. split; [apply renderOutputLine_run|].
  rewrite (transcripts_frames _ _ _ _ _ (renderChanges_keep value) Hfind).
  apply Forall_forall. intros frame (shown & <- & Hshown)%list_elem_of_In%in_map_iff.
  exists shown. split; [done|].
  pose proof (evolve_keeps line _ (renderChanges_keep_content value)) as Hkeeps.
  rewrite Forall_forall in Hkeeps. by apply Hkeeps, list_elem_of_In.
Qed.

(** ** Line ids *)

Lemma js_digit (d : Decimal.uint) :
  d <> Decimal.Nil ->
  exists digit rest,
    js (NilEmpty.string_of_uint d) = digit :: rest /\ 0x30 <= digit <= 0x39.
Proof.
  intros Hd.
  destruct d; [done|..]; cbn [NilEmpty.string_of_uint];
    eexists _, _; (split; [reflexivity|vm_compute; split; discriminate]).
Qed.

Lemma numberToString_digit (n : N) :
  exists digit rest, numberToString n = digit :: rest /\ 0x30 <= digit <= 0x39.
Proof.
  unfold numberToString. apply js_digit.
  destruct n as [|p]; [done|]. apply DecimalPos.Unsigned.to_uint_nonnil.
Qed.

(** The id of an echo line is a decimal numeral, the id of an output
    line starts with "output-": they never coincide. *)
Lemma echo_id_is_no_output_id (now later : N) :
  numberToString now <> js "output-" ++ numberToString later.
Proof.
  destruct (numberToString_digit now) as (digit & rest & -> & Hdigit).
  intros Heq. apply (f_equal head) in Heq. vm_compute in Heq.
  injection Heq as ->. lia.
Qed.

(** ** What the dispatcher hands over *)

Section Replies.
Context `{Host}.

Lemma getCommandOutput_returns (input : jsstring) (rng : Random) :
  exists result rng', getCommandOutput input rng = (Normal result, rng').
Proof.
  unfold getCommandOutput, getCommandOutputWith.
  destruct (splitSpace (toLowerCase (trim input))) as [command args].
  destruct (decide (command = js "clear")); [by eexists _, _|].
  destruct (decide (command = js "reload")); [by eexists _, _|].
  destruct (getProperty commands command) as [callee|]; [|by eexists _, _].
  unfold tryCatch. destruct (callee args rng) as [[value|thrown] rng']; by eexists _, _.
Qed.

Lemma sentinel_resolves (command : jsstring) (rng : Random) (sentinel : jsstring) :
  fst (splitSpace (toLowerCase (trim command))) = js "clear" /\ sentinel = js "CLEAR"
  \/ fst (splitSpace (toLowerCase (trim command))) = js "reload" /\ sentinel = js "RELOAD" ->
  getCommandOutput command rng
  = (Normal (Output {| Commands.content := Text sentinel; Commands.error := false |}), rng).
Proof.
  intros Htoken. unfold getCommandOutput, getCommandOutputWith.
  destruct (splitSpace (toLowerCase (trim command))) as [token args]. cbn [fst] in Htoken.
  destruct Htoken as [[-> ->]|[-> ->]]; [by rewrite decide_True|].
  rewrite decide_False by differ. by rewrite decide_True.
Qed.

(** Every handler of the registry other than the two sentinels resolves,
    with segments and the error flag false. *)
Lemma handlers_succeed (command : jsstring) (handler : Handler) (args : list jsstring)
    (rng : Random) :
  commands !! command = Some handler ->
  command <> js "clear" -> command <> js "reload" ->
  exists segments rng',
    handler args rng
    = (Normal {| Commands.content := Segments segments; Commands.error := false |}, rng').
Proof.
  unfold commands. intros Hin%elem_of_list_to_map_2 Hclear Hreload.
  repeat (apply elem_of_cons in Hin as [Hin|Hin];
          [injection Hin as -> ->;
           first [ apply sudo_returns | done | eexists _, _; reflexivity ]
          | ]).
  by apply elem_of_nil in Hin.
Qed.

Lemma dispatched_shape (input : jsstring) (rng rng' : Random) (output : CommandOutput) :
  fst (splitSpace (toLowerCase (trim input))) <> js "clear" ->
  fst (splitSpace (toLowerCase (trim input))) <> js "reload" ->
  getCommandOutput input rng = (Normal (Output output), rng') ->
  exists segments,
    Commands.content output = Segments segments
    /\ Commands.error output
       = bool_decide (commands !! fst (splitSpace (toLowerCase (trim input))) = None).
Proof.
  unfold getCommandOutput, getCommandOutputWith.
  destruct (splitSpace (toLowerCase (trim input))) as [command args]. cbn [fst].
  intros Hclear Hreload.
  rewrite decide_False by done. rewrite decide_False by done.
  unfold getProperty.
  destruct (commands !! command) as [handler|] eqn:Hown.
  - destruct (handlers_succeed command handler args rng Hown Hclear Hreload)
      as (segments & rng1 & Hrun).
    unfold tryCatch, mbind, Eff_bind, bind. rewrite Hrun.
    intros <-%Normal_inv%(inj Output). by exists segments.
  - rewrite bool_decide_eq_true_2 by done.
    destruct (objectPrototype command) as [member|].
    + unfold tryCatch. destruct (member args); [done|].
      intros <-%Normal_inv%(inj Output). by eexists.
    + intros <-%Normal_inv%(inj Output). by eexists.
Qed.

Lemma ends_with_text_nonempty (segments : FormattedOutput) :
  endsWithText (Segments segments) -> formatToString segments <> [].
Proof.
  intros (final & Hlast & Htext).
  apply last_Some in Hlast as [front ->].
  rewrite formatToString_app. unfold formatToString at 2. cbn [flat_map].
  rewrite app_nil_r. intros [_ ?]%app_eq_nil. done.
Qed.

Lemma dispatched_reveal_ends_on_content (input : jsstring) (rng rng' : Random)
    (output : CommandOutput) :
  fst (splitSpace (toLowerCase (trim input))) <> js "clear" ->
  fst (splitSpace (toLowerCase (trim input))) <> js "reload" ->
  getCommandOutput input rng = (Normal (Output output), rng') ->
  last (snapshots (Commands.content output)) = Some (Commands.content output).
Proof.
  intros Hclear Hreload Hresolve.
  destruct (dispatched_shape _ _ _ _ Hclear Hreload Hresolve) as (segments & Hcontent & _).
  pose proof (dispatched_content_ends_with_text _ _ _ _ Hresolve) as Hends.
  rewrite Hcontent in *.
  rewrite snapshots_last, decide_False by by apply ends_with_text_nonempty.
  destruct Hends as (final & Hlast & Htext). cbn [settled].
  by rewrite (withoutTrailingEmpty_id _ _ Hlast Htext).
Qed.

(** X13: on every input whose command token is neither [clear] nor
    [reload], a [CommandOutput] that [getCommandOutput] resolves to has
    segments for content (never a plain string, so never a sentinel), and
    its error flag is set exactly when the token is no key of [commands]:
    no handler of the registry rejects or reports an error, and every
    reply to an unregistered name does. *)
Theorem error_flag_marks_unregistered_names (input : jsstring) (rng rng' : Random)
    (output : CommandOutput) :
  fst (splitSpace (toLowerCase (trim input))) <> js "clear" ->
  fst (splitSpace (toLowerCase (trim input))) <> js "reload" ->
  getCommandOutput input rng = (Normal (Output output), rng') ->
  (Commands.error output = true
   <-> commands !! fst (splitSpace (toLowerCase (trim input))) = None)
  /\ exists segments, Commands.content output = Segments segments.
Proof.
  intros Hclear Hreload Hresolve.
  destruct (dispatched_shape _ _ _ _ Hclear Hreload Hresolve) as (segments & Hcontent & ->).
  split; [apply bool_decide_eq_true|by exists segments].
Qed.

End Replies.

(** ** A line under reveal *)

Section Reveal.
Context `{Host}.



End Reveal.

(** ** The update transcript of [sudo] *)

Section Update.
Context `{Host}.

Lemma randomVersion_draws (rng : Random) :
  exists version,
    randomVersion rng = (Normal version, fun k => rng (S (S (S k)))).
Proof. by eexists. Qed.

Lemma packageLines_spec (remaining : nat) (i : N) (rng : Random) :
  exists lines rng',
    packageLines remaining i rng = (Normal lines, rng')
    /\ (forall k, rng' k = rng (k + 8 * remaining)%nat)
    /\ length lines = (6 * remaining)%nat
    /\ forall j, (j < remaining)%nat ->
         lines !! (6 * j)%nat
         = Some (text.default (js "Get:" ++ numberToString (i + N.of_nat j + 1) ++ js " ")
                   false)
         /\ exists pkg, pkg ∈ packages
              /\ lines !! (6 * j + 2)%nat = Some (text.default (pkg ++ js " ") false).
Proof.
  revert i rng. induction remaining as [|remaining IH]; intros i rng.
  - exists [], rng. split; [done|]. split; [intros k; f_equal; lia|]. split; [done|].
    intros j Hj. lia.
  - cbn [packageLines].
    erewrite bind_run by reflexivity.
    destruct (randomVersion_draws (fun k => rng (S k))) as (old & Hold).
    erewrite bind_run by exact Hold.
    destruct (randomVersion_draws (fun k => rng (S (S (S (S k)))))) as (new & Hnew).
    erewrite bind_run by exact Hnew.
    erewrite bind_run by reflexivity.
    destruct (IH (i + 1) (fun k => rng (S (S (S (S (S (S (S (S k))))))))))
      as (lines & rng' & Hlines & Hdraws & Hlength & Hnumbered).
    erewrite bind_run by exact Hlines.
    eexists _, rng'. split; [reflexivity|].
    split. { intros k. rewrite Hdraws. f_equal. lia. }
    split. { cbn [length app]. rewrite Hlength. lia. }
    intros [|j] Hj.
    + split. { replace (i + N.of_nat 0 + 1) with (i + 1) by lia. reflexivity. }
      destruct (lookup_lt_is_Some_2 packages
                  (N.to_nat (rng 0%nat mod N.of_nat (length packages)))) as [pkg Hpkg].
      { pose proof (N.mod_lt (rng 0%nat) (N.of_nat (length packages))) as Hlt.
        assert (N.of_nat (length packages) <> 0) as Hsome by (vm_compute; discriminate).
        specialize (Hlt Hsome). lia. }
      exists pkg. split; [by eapply list_elem_of_lookup_2|].
      rewrite Hpkg. reflexivity.
    + destruct (Hnumbered j ltac:(lia)) as (Hget & pkg & Hin & Hpkg).
      replace (6 * S j)%nat with (6 + 6 * j)%nat by lia.
      replace (6 + 6 * j + 2)%nat with (6 + (6 * j + 2))%nat by lia.
      split.
      * rewrite (lookup_app_r [_; _; _; _; _; _]) by (cbn [length]; lia).
        cbn [length]. replace (6 + 6 * j - 6)%nat with (6 * j)%nat by lia.
        rewrite Hget. do 5 f_equal. lia.
      * exists pkg. split; [done|].
        rewrite (lookup_app_r [_; _; _; _; _; _]) by (cbn [length]; lia).
        cbn [length]. by replace (6 + (6 * j + 2) - 6)%nat with (6 * j + 2)%nat by lia.
Qed.

Lemma generateUpdateLines_spec (rng : Random) :
  exists (n : nat) (lines closing : FormattedOutput) (rng' : Random),
    generateUpdateLines rng = (Normal (lines ++ closing), rng')
    /\ (5 <= n <= 12)%nat
    /\ length lines = (6 * n)%nat
    /\ length closing = 14%nat
    /\ (forall j, (j < n)%nat ->
          lines !! (6 * j)%nat
          = Some (text.default (js "Get:" ++ numberToString (N.of_nat j + 1) ++ js " ") false)
          /\ exists pkg, pkg ∈ packages
               /\ lines !! (6 * j + 2)%nat = Some (text.default (pkg ++ js " ") false))
    /\ forall k, rng' k = rng (k + 8 * n + 3)%nat.
Proof.
  assert (5 <= N.to_nat (rng 0%nat mod 8 + 5) <= 12)%nat as Hn.
  { pose proof (N.mod_lt (rng 0%nat) 8 ltac:(done)) as Hdraw.
    revert Hdraw. generalize (rng 0%nat mod 8). intros draw Hdraw. lia. }
  unfold generateUpdateLines.
  erewrite bind_run by reflexivity.
  set (n := N.to_nat (rng 0%nat mod 8 + 5)) in *.
  destruct (packageLines_spec n 0 (fun k => rng (S k)))
    as (lines & rng1 & Hlines & Hdraws & Hlength & Hnumbered).
  erewrite bind_run by exact Hlines.
  do 2 (erewrite bind_run by reflexivity).
  eexists n, lines, _, _. split; [reflexivity|].
  split; [exact Hn|].
  split; [done|]. split; [done|]. split.
  - intros j Hj. destruct (Hnumbered j Hj) as (Hget & pkg & Hin & Hpkg).
    split; [by rewrite Hget|]. by exists pkg.
  - intros k. rewrite Hdraws. f_equal. lia.
Qed.

(** X14: on the update path (no argument, or arguments naming update,
    upgrade or install) [sudo] resolves, whatever [Math.random]
    delivers, to a transcript of six prelude segments, n package lines
    of six segments each with 5 <= n <= 12, and fourteen closing
    segments. The package lines are numbered Get:1 to Get:n in order,
    each names a package of the handler's own list (the index drawn is
    always in range), and the call consumes exactly 8n + 3 draws. *)
Theorem sudo_update_lists_five_to_twelve_packages (args : list jsstring) (rng : Random) :
  isUpdateCommand args = true ->
  exists (n : nat) (segments : FormattedOutput) (rng' : Random),
    sudo args rng
    = (Normal {| Commands.content := Segments segments; Commands.error := false |}, rng')
    /\ (5 <= n <= 12)%nat
    /\ length segments = (6 + 6 * n + 14)%nat
    /\ (forall j, (j < n)%nat ->
          segments !! (6 + 6 * j)%nat
          = Some (text.default (js "Get:" ++ numberToString (N.of_nat j + 1) ++ js " ") false)
          /\ exists pkg, pkg ∈ packages
               /\ segments !! (6 + 6 * j + 2)%nat = Some (text.default (pkg ++ js " ") false))
    /\ forall k, rng' k = rng (k + 8 * n + 3)%nat.
Proof.
  intros Hupdate. unfold sudo. rewrite Hupdate.
  destruct (generateUpdateLines_spec rng)
    as (n & lines & closing & rng' & Hrun & Hn & Hlength & Hclosing & Hnumbered & Hdraws).
  erewrite bind_run by exact Hrun.
  eexists n, _, rng'. split; [reflexivity|]. split; [done|].
  unfold combine. cbn [concat app]. rewrite app_nil_r.
  split. { cbn [length]. rewrite length_app, Hlength, Hclosing. lia. }
  split; [|done].
  intros j Hj. destruct (Hnumbered j Hj) as (Hget & pkg & Hin & Hpkg).
  match goal with
  | |- context [?a :: ?b :: ?c :: ?d :: ?e :: ?f :: lines ++ closing] =>
      change (a :: b :: c :: d :: e :: f :: lines ++ closing)
        with ([a; b; c; d; e; f] ++ (lines ++ closing))
  end.
  rewrite !(lookup_app_r [_; _; _; _; _; _]) by (cbn [length]; lia). cbn [length].
  replace (6 + 6 * j - 6)%nat with (6 * j)%nat by lia.
  replace (6 + 6 * j + 2 - 6)%nat with (6 * j + 2)%nat by lia.
  rewrite !lookup_app_l by lia.
  split; [done|]. by exists pkg.
Qed.

End Update.

(** ** A submit, from the echo to the release *)

Section Submit.
Context `{Host}.

(** An accepted submit: the guard passed, the command recorded and
    echoed, the dispatcher consulted. What is left is the [try] block
    on the result. *)
Lemma handleCommand_dispatch (command : jsstring) (w : World) (result : Resolved)
    (rng' : Random) :
  isProcessing (session w) = false ->
  trim command <> [] ->
  getCommandOutput command (random w) = (Normal result, rng') ->
  handleCommand command w
  = tryFinally
      (tryCatch
         (resultContent ← contentOf result;
          if decide (resultContent = Some (Text (js "CLEAR"))) then
            setLines (fun _ => welcomeLines);; setHistory [];; setHistoryIndex (-1)
          else if decide (resultContent = Some (Text (js "RELOAD"))) then reload
          else
            now ← dateNow;
            setLines (fun prev => prev ++
              [ outputLine now (if errorOf result then LineType.error else LineType.output)
                  resultContent ]);;
            renderOutputLine (js "output-" ++ numberToString now) resultContent
              (if errorOf result then LineType.error else LineType.output))
         (fun error => now ← dateNow; setLines (fun prev => prev ++ [failureLine now])))
      (setIsProcessing false)
      (dispatched command w rng').
Proof.
  intros Hidle Hinput Hresolve.
  unfold handleCommand. erewrite bind_run by reflexivity.
  rewrite Hidle, bool_decide_eq_false_2 by done. cbn [orb].
  do 6 (erewrite bind_run by reflexivity; world_simpl).
  unfold tryFinally, tryCatch.
  erewrite bind_run.
  2:{ unfold withRandom. world_simpl. rewrite Hresolve. reflexivity. }
  reflexivity.
Qed.

Lemma handleCommand_clear (command : jsstring) (w : World) (rng' : Random)
    (output : CommandOutput) :
  isProcessing (session w) = false ->
  trim command <> [] ->
  getCommandOutput command (random w) = (Normal (Output output), rng') ->
  Commands.content output = Text (js "CLEAR") ->
  handleCommand command w
  = (Normal tt,
     {| session := initialSession;
        random := rng';
        clock := fun k => clock w (S k);
        painted := (painted w ++ [lines (session w) ++ [echoLine command (clock w 0%nat)]])
                   ++ [welcomeLines];
        reloads := reloads w |}).
Proof.
  intros Hidle Hinput Hresolve Hcontent.
  rewrite (handleCommand_dispatch command w _ rng' Hidle Hinput Hresolve).
  unfold tryFinally, tryCatch, contentOf.
  erewrite bind_run by reflexivity.
  rewrite decide_True by by rewrite Hcontent.
  reflexivity.
Qed.

Lemma handleCommand_reload (command : jsstring) (w : World) (rng' : Random)
    (output : CommandOutput) :
  isProcessing (session w) = false ->
  trim command <> [] ->
  getCommandOutput command (random w) = (Normal (Output output), rng') ->
  Commands.content output = Text (js "RELOAD") ->
  handleCommand command w
  = (Normal tt,
     {| session :=
          {| lines := lines (session w) ++ [echoLine command (clock w 0%nat)];
             input := []; history := history (session w) ++ [command]; historyIndex := -1;
             isProcessing := false |};
        random := rng';
        clock := fun k => clock w (S k);
        painted := painted w ++ [lines (session w) ++ [echoLine command (clock w 0%nat)]];
        reloads := S (reloads w) |}).
Proof.
  intros Hidle Hinput Hresolve Hcontent.
  rewrite (handleCommand_dispatch command w _ rng' Hidle Hinput Hresolve).
  unfold tryFinally, tryCatch, contentOf.
  erewrite bind_run by reflexivity.
  rewrite decide_False by (rewrite Hcontent; differ).
  rewrite decide_True by by rewrite Hcontent.
  reflexivity.
Qed.

(** A result that is no [CommandOutput]: the component's own [catch]. *)
Lemma handleCommand_undefined (command : jsstring) (w : World) (rng' : Random) :
  isProcessing (session w) = false ->
  trim command <> [] ->
  getCommandOutput command (random w) = (Normal (NotOutput Undefined), rng') ->
  handleCommand command w
  = (Normal tt,
     {| session :=
          {| lines := (lines (session w) ++ [echoLine command (clock w 0%nat)])
                      ++ [failureLine (clock w 1%nat)];
             input := []; history := history (session w) ++ [command]; historyIndex := -1;
             isProcessing := false |};
        random := rng';
        clock := fun k => clock w (S (S k));
        painted := (painted w ++ [lines (session w) ++ [echoLine command (clock w 0%nat)]])
                   ++ [(lines (session w) ++ [echoLine command (clock w 0%nat)])
                       ++ [failureLine (clock w 1%nat)]];
        reloads := reloads w |}).
Proof.
  intros Hidle Hinput Hresolve.
  rewrite (handleCommand_dispatch command w _ rng' Hidle Hinput Hresolve).
  reflexivity.
Qed.

Lemma handleCommand_fieldless (command : jsstring) (w : World) (rng' : Random) :
  isProcessing (session w) = false ->
  trim command <> [] ->
  getCommandOutput command (random w) = (Normal (NotOutput Fieldless), rng') ->
  handleCommand command w
  = (Normal tt,
     {| session :=
          {| lines := ((lines (session w) ++ [echoLine command (clock w 0%nat)])
                       ++ [outputLine (clock w 1%nat) LineType.output None])
                      ++ [failureLine (clock w 2%nat)];
             input := []; history := history (session w) ++ [command]; historyIndex := -1;
             isProcessing := false |};
        random := rng';
        clock := fun k => clock w (S (S (S k)));
        painted := ((painted w ++ [lines (session w) ++ [echoLine command (clock w 0%nat)]])
                    ++ [(lines (session w) ++ [echoLine command (clock w 0%nat)])
                        ++ [outputLine (clock w 1%nat) LineType.output None]])
                   ++ [((lines (session w) ++ [echoLine command (clock w 0%nat)])
                        ++ [outputLine (clock w 1%nat) LineType.output None])
                       ++ [failureLine (clock w 2%nat)]];
        reloads := reloads w |}).
Proof.
  intros Hidle Hinput Hresolve.
  rewrite (handleCommand_dispatch command w _ rng' Hidle Hinput Hresolve).
  unfold tryFinally, tryCatch, contentOf.
  erewrite bind_run by reflexivity.
  rewrite decide_False by done. rewrite decide_False by done.
  reflexivity.
Qed.

Lemma handleCommand_output (command : jsstring) (w : World) (rng' : Random)
    (output : CommandOutput) :
  isProcessing (session w) = false ->
  trim command <> [] ->
  getCommandOutput command (random w) = (Normal (Output output), rng') ->
  Commands.content output <> Text (js "CLEAR") ->
  Commands.content output <> Text (js "RELOAD") ->
  handleCommand command w
  = (Normal tt,
     released (painting
       {| session := session (dispatched command w rng'); random := rng';
          clock := fun k => clock w (S (S k));
          painted := painted (dispatched command w rng'); reloads := reloads w |}
       ((lines (session (dispatched command w rng'))
           ++ [outputLine (clock w 1%nat)
                 (if Commands.error output then LineType.error else LineType.output)
                 (Some (Commands.content output))])
        :: transcripts (js "output-" ++ numberToString (clock w 1%nat))
             (renderChanges (Commands.content output))
             (lines (session (dispatched command w rng'))
                ++ [outputLine (clock w 1%nat)
                      (if Commands.error output then LineType.error else LineType.output)
                      (Some (Commands.content output))])))).
Proof.
  intros Hidle Hinput Hresolve Hclear Hreload.
  rewrite (handleCommand_dispatch command w _ rng' Hidle Hinput Hresolve).
  unfold tryFinally, tryCatch, contentOf.
  erewrite bind_run by reflexivity.
  rewrite decide_False by congruence. rewrite decide_False by congruence.
  erewrite bind_run by reflexivity.
  erewrite bind_run by apply setLines_run.
  rewrite renderOutputLine_run, painting_app.
  reflexivity.
Qed.

(** X2: a submit that passes the guard (terminal idle, input not blank)
    never throws and always ends with [isProcessing] released, whatever
    the dispatcher hands back: a sentinel, a reply, or a value that is
    no [CommandOutput] at all (the [catch] and the [finally] of
    [handleCommand]). The prompt is emptied, the history cursor is back
    at -1, and the first transcript handed to React is the old one with
    the echo of the command, as typed, appended. *)
Theorem submit_completes_and_releases (command : jsstring) (w : World) :
  isProcessing (session w) = false ->
  trim command <> [] ->
  exists w' more,
    handleCommand command w = (Normal tt, w')
    /\ isProcessing (session w') = false
    /\ input (session w') = []
    /\ historyIndex (session w') = (-1)%Z
    /\ painted w'
       = painted w ++ (lines (session w) ++ [echoLine command (clock w 0%nat)]) :: more.
Proof.
  intros Hidle Hinput.
  destruct (getCommandOutput_returns command (random w)) as (result & rng' & Hresolve).
  destruct result as [output|[|]].
  - destruct (decide (Commands.content output = Text (js "CLEAR"))) as [Hclear|Hclear];
      [|destruct (decide (Commands.content output = Text (js "RELOAD"))) as [Hreload|Hreload]].
    + rewrite (handleCommand_clear _ _ _ _ Hidle Hinput Hresolve Hclear).
      eexists _, _. split; [reflexivity|]. repeat split. cbn [painted].
      by rewrite <- app_assoc.
    + rewrite (handleCommand_reload _ _ _ _ Hidle Hinput Hresolve Hreload).
      eexists _, []. split; [reflexivity|]. by repeat split.
    + rewrite (handleCommand_output _ _ _ _ Hidle Hinput Hresolve Hclear Hreload).
      eexists _, _. split; [reflexivity|]. repeat split.
      unfold released, painting, dispatched. cbn [painted]. by rewrite <- app_assoc.
  - rewrite (handleCommand_undefined _ _ _ Hidle Hinput Hresolve).
    eexists _, _. split; [reflexivity|]. repeat split. cbn [painted].
    by rewrite <- app_assoc.
  - rewrite (handleCommand_fieldless _ _ _ Hidle Hinput Hresolve).
    eexists _, _. split; [reflexivity|]. repeat split. cbn [painted].
    by rewrite <- !app_assoc.
Qed.

(** X3: submitting [clear] (any case, any arguments) to an idle terminal
    puts the component's state back to what it was when mounted: the two
    welcome lines, an empty prompt, an empty history (the [clear] just
    recorded included), the cursor at -1, not processing. No reload is
    requested and no random number is drawn. *)
Theorem clear_resets_the_session (command : jsstring) (w : World) :
  isProcessing (session w) = false ->
  trim command <> [] ->
  fst (splitSpace (toLowerCase (trim command))) = js "clear" ->
  fst (handleCommand command w) = Normal tt
  /\ session (snd (handleCommand command w)) = initialSession
  /\ random (snd (handleCommand command w)) = random w
  /\ reloads (snd (handleCommand command w)) = reloads w.
Proof.
  intros Hidle Hinput Htoken.
  by rewrite (handleCommand_clear _ _ _ _ Hidle Hinput
                (sentinel_resolves command (random w) (js "CLEAR")
                   (or_introl (conj Htoken eq_refl))) eq_refl).
Qed.

(** X4: submitting [reload] to an idle terminal requests exactly one
    page reload; [handleCommand] still runs to its end and releases
    [isProcessing]; until the page goes, the transcript has gained the
    echo line and nothing else, the history has gained the command as
    typed, and no random number was drawn. *)
Theorem reload_requests_one_reload (command : jsstring) (w : World) :
  isProcessing (session w) = false ->
  trim command <> [] ->
  fst (splitSpace (toLowerCase (trim command))) = js "reload" ->
  fst (handleCommand command w) = Normal tt
  /\ reloads (snd (handleCommand command w)) = S (reloads w)
  /\ isProcessing (session (snd (handleCommand command w))) = false
  /\ lines (session (snd (handleCommand command w)))
     = lines (session w) ++ [echoLine command (clock w 0%nat)]
  /\ history (session (snd (handleCommand command w))) = history (session w) ++ [command]
  /\ random (snd (handleCommand command w)) = random w.
Proof.
  intros Hidle Hinput Htoken.
  by rewrite (handleCommand_reload _ _ _ _ Hidle Hinput
                (sentinel_resolves command (random w) (js "RELOAD")
                   (or_intror (conj Htoken eq_refl))) eq_refl).
Qed.

(** X5: end to end. When an idle terminal accepts a command other than
    [clear] and [reload], the dispatcher resolves it to a
    [CommandOutput], and no line of the transcript already carries the
    id the output line is about to get ("output-" and the second clock
    reading), then [handleCommand] returns with the transcript extended
    by exactly two lines: the echo of the command as typed, and the
    output line, complete, of kind error or output by the error flag,
    showing the whole content. The history has gained the command as
    typed. *)
Theorem accepted_submit_shows_the_reply (command : jsstring) (w : World)
    (output : CommandOutput) (rng' : Random) :
  isProcessing (session w) = false ->
  trim command <> [] ->
  fst (splitSpace (toLowerCase (trim command))) <> js "clear" ->
  fst (splitSpace (toLowerCase (trim command))) <> js "reload" ->
  getCommandOutput command (random w) = (Normal (Output output), rng') ->
  Forall (fun l => id l <> js "output-" ++ numberToString (clock w 1%nat))
         (lines (session w)) ->
  fst (handleCommand command w) = Normal tt
  /\ lines (session (snd (handleCommand command w)))
     = lines (session w)
       ++ [ echoLine command (clock w 0%nat);
            {| id := js "output-" ++ numberToString (clock w 1%nat);
               type := if Commands.error output then LineType.error else LineType.output;
               content := Some (Commands.content output);
               displayedContent := Commands.content output;
               isComplete := true |} ]
  /\ history (session (snd (handleCommand command w))) = history (session w) ++ [command].
Proof.
  intros Hidle Hinput Hclear Hreload Hresolve Hfresh.
  destruct (dispatched_shape _ _ _ _ Hclear Hreload Hresolve) as (segments & Hcontent & _).
  rewrite (handleCommand_output _ _ _ _ Hidle Hinput Hresolve)
    by (rewrite Hcontent; discriminate).
  split; [done|]. split; [|done].
  unfold released, painting. cbn [snd session lines]. rewrite last_cons_default.
  rewrite reveal_appended.
  - rewrite (dispatched_reveal_ends_on_content _ _ _ _ Hclear Hreload Hresolve).
    cbn [default from_option Datatypes.id dispatched session lines outputLine
         id type content displayedContent].
    by rewrite <- app_assoc.
  - cbn [dispatched session lines]. apply Forall_app. split; [done|].
    constructor; [|constructor]. cbn [echoLine id]. apply echo_id_is_no_output_id.
  - done.
Qed.

(** X6: when the dispatcher hands back a value that is no
    [CommandOutput] (the command token names a member inherited from
    [Object.prototype], and the call through it returns), the component
    catches its own failure: [handleCommand] returns normally with
    [isProcessing] released and the line "An error occurred while
    executing the command." last. For [undefined] the read of
    [result.content] throws and the transcript gains the echo and that
    line. For a value without the fields, the output line is appended
    first, with content [undefined], and the renderer throws on it: the
    transcript gains the echo, that output line, never completed and
    never removed, and the error line. *)
Theorem foreign_result_is_caught (command : jsstring) (w : World) (foreign : Foreign)
    (rng' : Random) :
  isProcessing (session w) = false ->
  trim command <> [] ->
  getCommandOutput command (random w) = (Normal (NotOutput foreign), rng') ->
  fst (handleCommand command w) = Normal tt
  /\ isProcessing (session (snd (handleCommand command w))) = false
  /\ lines (session (snd (handleCommand command w)))
     = match foreign with
       | Undefined =>
           lines (session w)
           ++ [ echoLine command (clock w 0%nat); failureLine (clock w 1%nat) ]
       | Fieldless =>
           lines (session w)
           ++ [ echoLine command (clock w 0%nat);
                outputLine (clock w 1%nat) LineType.output None;
                failureLine (clock w 2%nat) ]
       end.
Proof.
  intros Hidle Hinput Hresolve. destruct foreign.
  - rewrite (handleCommand_undefined _ _ _ Hidle Hinput Hresolve).
    split; [done|]. split; [done|]. cbn [snd session lines]. by rewrite <- app_assoc.
  - rewrite (handleCommand_fieldless _ _ _ Hidle Hinput Hresolve).
    split; [done|]. split; [done|]. cbn [snd session lines]. by rewrite <- !app_assoc.
Qed.

(** Whatever is submitted, [handleCommand] completes, and leaves the
    component as it was or the cursor at the prompt. *)
Lemma handleCommand_cursor (command : jsstring) (w : World) :
  exists w',
    handleCommand command w = (Normal tt, w')
    /\ (w' = w \/ historyIndex (session w') = (-1)%Z).
Proof.
  destruct (isProcessing (session w)) eqn:Hidle;
    [|destruct (decide (trim command = [])) as [Hinput|Hinput]].
  - exists w. split; [|by left]. unfold handleCommand. erewrite bind_run by reflexivity.
    by rewrite Hidle, orb_true_r.
  - exists w. split; [|by left]. unfold handleCommand. erewrite bind_run by reflexivity.
    by rewrite bool_decide_eq_true_2.
  - destruct (getCommandOutput_returns command (random w)) as (result & rng' & Hresolve).
    destruct result as [output|[|]].
    + destruct (decide (Commands.content output = Text (js "CLEAR"))) as [Hclear|Hclear];
        [|destruct (decide (Commands.content output = Text (js "RELOAD")))
            as [Hreload|Hreload]].
      * rewrite (handleCommand_clear _ _ _ _ Hidle Hinput Hresolve Hclear).
        eexists. split; [reflexivity|by right].
      * rewrite (handleCommand_reload _ _ _ _ Hidle Hinput Hresolve Hreload).
        eexists. split; [reflexivity|by right].
      * rewrite (handleCommand_output _ _ _ _ Hidle Hinput Hresolve Hclear Hreload).
        eexists. split; [reflexivity|by right].
    + rewrite (handleCommand_undefined _ _ _ Hidle Hinput Hresolve).
      eexists. split; [reflexivity|by right].
    + rewrite (handleCommand_fieldless _ _ _ Hidle Hinput Hresolve).
      eexists. split; [reflexivity|by right].
Qed.


End Submit.

(** ** The history keys *)

(** The entry [k] steps back from the most recent one. *)
Lemma historyAt_reverse (history : list jsstring) (k : nat) :
  (k < length history)%nat ->
  historyAt history (Z.of_nat (length history) - 1 - Z.of_nat k) = reverse history !! k.
Proof.
  intros Hk. unfold historyAt. rewrite decide_True by lia.
  rewrite reverse_lookup by done. f_equal. lia.
Qed.

Lemma ArrowUp_is_not_Enter : js "ArrowUp" <> js "Enter".
Proof. differ. Qed.

Lemma ArrowDown_is_not_Enter : js "ArrowDown" <> js "Enter".
Proof. differ. Qed.

Lemma ArrowDown_is_not_ArrowUp : js "ArrowDown" <> js "ArrowUp".
Proof. differ. Qed.

Section Keys.
Context `{Host}.

Lemma handleKeyDown_up (w : World) (k : nat) (entry : jsstring) :
  historyIndex (session w) = (Z.of_nat k - 1)%Z ->
  reverse (history (session w)) !! k = Some entry ->
  handleKeyDown (js "ArrowUp") w = Some (Normal tt, recalled (Z.of_nat k) entry w).
Proof.
  intros Hindex Hentry.
  pose proof (lookup_lt_Some _ _ _ Hentry) as Hk. rewrite length_reverse in Hk.
  unfold handleKeyDown.
  rewrite (decide_False (P := js "ArrowUp" = js "Enter")) by apply ArrowUp_is_not_Enter.
  rewrite (decide_True (P := js "ArrowUp" = js "ArrowUp")) by done.
  rewrite decide_True by lia.
  replace (historyIndex (session w) + 1)%Z with (Z.of_nat k) by lia.
  rewrite historyAt_reverse, Hentry by done.
  reflexivity.
Qed.

Lemma handleKeyDown_up_oldest (w : World) :
  (Z.of_nat (length (history (session w))) - 1 <= historyIndex (session w))%Z ->
  handleKeyDown (js "ArrowUp") w = Some (Normal tt, w).
Proof.
  intros Hindex. unfold handleKeyDown.
  rewrite (decide_False (P := js "ArrowUp" = js "Enter")) by apply ArrowUp_is_not_Enter.
  rewrite (decide_True (P := js "ArrowUp" = js "ArrowUp")) by done.
  by rewrite decide_False by lia.
Qed.

Lemma handleKeyDown_down (w : World) (k : nat) (entry : jsstring) :
  historyIndex (session w) = Z.of_nat (S k) ->
  reverse (history (session w)) !! k = Some entry ->
  handleKeyDown (js "ArrowDown") w = Some (Normal tt, recalled (Z.of_nat k) entry w).
Proof.
  intros Hindex Hentry.
  pose proof (lookup_lt_Some _ _ _ Hentry) as Hk. rewrite length_reverse in Hk.
  unfold handleKeyDown.
  rewrite (decide_False (P := js "ArrowDown" = js "Enter")) by apply ArrowDown_is_not_Enter.
  rewrite (decide_False (P := js "ArrowDown" = js "ArrowUp")) by apply ArrowDown_is_not_ArrowUp.
  rewrite (decide_True (P := js "ArrowDown" = js "ArrowDown")) by done.
  rewrite decide_True by lia.
  replace (historyIndex (session w) - 1)%Z with (Z.of_nat k) by lia.
  rewrite historyAt_reverse, Hentry by done.
  reflexivity.
Qed.

Lemma handleKeyDown_down_newest (w : World) :
  historyIndex (session w) = 0%Z ->
  handleKeyDown (js "ArrowDown") w = Some (Normal tt, recalled (-1) [] w).
Proof.
  intros Hindex. unfold handleKeyDown.
  rewrite (decide_False (P := js "ArrowDown" = js "Enter")) by apply ArrowDown_is_not_Enter.
  rewrite (decide_False (P := js "ArrowDown" = js "ArrowUp")) by apply ArrowDown_is_not_ArrowUp.
  rewrite (decide_True (P := js "ArrowDown" = js "ArrowDown")) by done.
  rewrite decide_False by lia. by rewrite decide_True by done.
Qed.

Lemma handleKeyDown_down_prompt (w : World) :
  (historyIndex (session w) < 0)%Z ->
  handleKeyDown (js "ArrowDown") w = Some (Normal tt, w).
Proof.
  intros Hindex. unfold handleKeyDown.
  rewrite (decide_False (P := js "ArrowDown" = js "Enter")) by apply ArrowDown_is_not_Enter.
  rewrite (decide_False (P := js "ArrowDown" = js "ArrowUp")) by apply ArrowDown_is_not_ArrowUp.
  rewrite (decide_True (P := js "ArrowDown" = js "ArrowDown")) by done.
  rewrite decide_False by lia. by rewrite decide_False by lia.
Qed.

(** X7: the history cursor stays in bounds. When [historyIndex] is -1 or
    the index of an entry, every key event leaves it so, [handleKeyDown]
    completes normally, and [setInput] is never handed [undefined]
    (every [history[...]] it reads exists). A key other than Enter
    touches nothing but the prompt and the cursor: the transcript, the
    history and [isProcessing] are as they were and React is handed no
    transcript; the arrows are not held back while a command is being
    processed. *)
Theorem history_cursor_stays_in_bounds (key : jsstring) (w : World) :
  cursorInBounds (session w) ->
  exists w',
    handleKeyDown key w = Some (Normal tt, w')
    /\ cursorInBounds (session w')
    /\ (key <> js "Enter" ->
        lines (session w') = lines (session w)
        /\ history (session w') = history (session w)
        /\ isProcessing (session w') = isProcessing (session w)
        /\ painted w' = painted w).
Proof.
  unfold cursorInBounds. intros Hbounds.
  destruct (decide (key = js "Enter")) as [->|Henter].
  { destruct (handleCommand_cursor (input (session w)) w) as (w' & Hrun & Hcursor).
    exists w'. unfold handleKeyDown. rewrite decide_True by done.
    split; [by rewrite Hrun|]. split; [|done].
    destruct Hcursor as [-> | Hc]; [done|lia]. }
  destruct (decide (key = js "ArrowUp")) as [->|Hup].
  { destruct (decide (historyIndex (session w)
                      < Z.of_nat (length (history (session w))) - 1)%Z) as [Hroom|Hroom].
    - destruct (lookup_lt_is_Some_2 (reverse (history (session w)))
                  (Z.to_nat (historyIndex (session w) + 1))) as [entry Hentry].
      { rewrite length_reverse. lia. }
      exists (recalled (Z.of_nat (Z.to_nat (historyIndex (session w) + 1))) entry w).
      split; [apply handleKeyDown_up; [lia|done]|].
      unfold recalled; world_simpl. split; [lia|done].
    - exists w. split; [apply handleKeyDown_up_oldest; lia|]. done. }
  destruct (decide (key = js "ArrowDown")) as [->|Hdown].
  { destruct (decide (historyIndex (session w) > 0)%Z) as [Hpos|Hpos];
      [|destruct (decide (historyIndex (session w) = 0)%Z) as [Hzero|Hzero]].
    - destruct (lookup_lt_is_Some_2 (reverse (history (session w)))
                  (Z.to_nat (historyIndex (session w) - 1))) as [entry Hentry].
      { rewrite length_reverse. lia. }
      exists (recalled (Z.of_nat (Z.to_nat (historyIndex (session w) - 1))) entry w).
      split; [apply handleKeyDown_down; [lia|done]|].
      unfold recalled; world_simpl. split; [lia|done].
    - eexists. split; [by apply handleKeyDown_down_newest|].
      unfold recalled; world_simpl. split; [lia|done].
    - exists w. split; [apply handleKeyDown_down_prompt; lia|]. done. }
  exists w. split; [|done]. unfold handleKeyDown.
  by rewrite !decide_False by done.
Qed.

Lemma pressAll_cons (key : jsstring) (keys : list jsstring) (w : World) :
  pressAll (key :: keys) w
  = match handleKeyDown key w with
    | Some (_, w') => pressAll keys w'
    | None => None
    end.
Proof. done. Qed.

Lemma pressAll_up (n k : nat) (w : World) (entry : jsstring) :
  historyIndex (session w) = (Z.of_nat k - 1)%Z ->
  reverse (history (session w)) !! (k + n)%nat = Some entry ->
  pressAll (replicate (S n) (js "ArrowUp")) w
  = Some (recalled (Z.of_nat (k + n)) entry w).
Proof.
  revert k w. induction n as [|n IH]; intros k w Hindex Hentry.
  - rewrite Nat.add_0_r in *. cbn [replicate pressAll].
    by rewrite (handleKeyDown_up w k entry Hindex Hentry).
  - destruct (lookup_lt_is_Some_2 (reverse (history (session w))) k) as [first Hfirst].
    { apply lookup_lt_Some in Hentry. lia. }
    change (replicate (S (S n)) (js "ArrowUp"))
      with (js "ArrowUp" :: replicate (S n) (js "ArrowUp")).
    rewrite pressAll_cons, (handleKeyDown_up w k first Hindex Hfirst).
    rewrite (IH (S k) (recalled (Z.of_nat k) first w)
               ltac:(unfold recalled; world_simpl; lia)).
    + replace (S k + n)%nat with (k + S n)%nat by lia. done.
    + unfold recalled; world_simpl. by replace (S k + n)%nat with (k + S n)%nat by lia.
Qed.

(** X8: from the prompt (cursor at -1), pressing ArrowUp n+1 times, with
    at least n+1 commands in the history, puts the cursor at n and shows
    the command submitted n steps before the most recent one; the
    history itself, the transcript and everything else are untouched.
    On the oldest entry one more ArrowUp changes nothing. *)
Theorem arrow_up_recalls_most_recent_first (n : nat) (w : World) (entry : jsstring) :
  historyIndex (session w) = (-1)%Z ->
  reverse (history (session w)) !! n = Some entry ->
  pressAll (replicate (S n) (js "ArrowUp")) w = Some (recalled (Z.of_nat n) entry w)
  /\ (S n = length (history (session w)) ->
      handleKeyDown (js "ArrowUp") (recalled (Z.of_nat n) entry w)
      = Some (Normal tt, recalled (Z.of_nat n) entry w)).
Proof.
  intros Hindex Hentry. split.
  - apply (pressAll_up n 0 w entry); [by rewrite Hindex|done].
  - intros Hlast. apply handleKeyDown_up_oldest. unfold recalled; world_simpl. lia.
Qed.

(** X9: ArrowUp followed by ArrowDown brings the cursor back where it
    was, and the prompt shows the entry under the cursor, not what it
    showed before: started from an entry, that entry; started from the
    prompt, the empty string, so a draft typed before ArrowUp is lost. *)
Theorem arrow_down_undoes_arrow_up (w : World) (k : nat) (entry : jsstring) :
  historyIndex (session w) = (Z.of_nat k - 1)%Z ->
  reverse (history (session w)) !! k = Some entry ->
  pressAll [js "ArrowUp"; js "ArrowDown"] w
  = Some (recalled (Z.of_nat k - 1)
            match k with
            | O => []
            | S j => default [] (reverse (history (session w)) !! j)
            end w).
Proof.
  intros Hindex Hentry.
  rewrite pressAll_cons, (handleKeyDown_up w k entry Hindex Hentry).
  rewrite pressAll_cons. destruct k as [|j].
  - by rewrite handleKeyDown_down_newest.
  - destruct (lookup_lt_is_Some_2 (reverse (history (session w))) j) as [before Hbefore].
    { apply lookup_lt_Some in Hentry. lia. }
    rewrite (handleKeyDown_down (recalled (Z.of_nat (S j)) entry w) j before) by done.
    rewrite Hbefore. replace (Z.of_nat (S j) - 1)%Z with (Z.of_nat j) by lia. done.
Qed.


End Keys.

(** ** What a line looks like *)

Lemma join_empty (pieces : list jsstring) : join [] pieces = concat pieces.
Proof.
  induction pieces as [|piece [|next rest] IH]; [done|by cbn; rewrite app_nil_r|].
  change (join [] (piece :: next :: rest)) with (piece ++ [] ++ join [] (next :: rest)).
  by rewrite IH.
Qed.

Lemma formatToString_concat (segments : FormattedOutput) :
  formatToString segments = concat (map text segments).
Proof. unfold formatToString. by rewrite flat_map_concat_map. Qed.

Lemma renderFormattedOutput_text (segments : FormattedOutput) :
  flat_map textContent (renderFormattedOutput segments) = formatToString segments.
Proof.
  unfold renderFormattedOutput, formatToString.
  induction segments as [|segment rest IH]; [done|].
  cbn [map flat_map textContent]. by rewrite IH, app_nil_r.
Qed.

(** X15: whenever [TerminalOutput] renders a line, the text on screen is
    the text of [displayedContent], or of [content] when
    [displayedContent] is the empty string (the [||] of the first line:
    a line not yet typed shows its whole content), preceded by the "$"
    prompt on a command line and by nothing on any other kind. Colours,
    boldness and the kind of line add or drop no character. *)
Theorem rendering_shows_the_displayed_text (line : TerminalLine) (node : Node) :
  TerminalOutput line = Normal node ->
  exists shown,
    (if decide (displayedContent line = Text []) then content line
     else Some (displayedContent line)) = Some shown
    /\ textContent node
       = match type line with LineType.command => js "$" | _ => [] end
         ++ contentText shown.
Proof.
  unfold TerminalOutput.
  assert (displayed line
          = if decide (displayedContent line = Text []) then content line
            else Some (displayedContent line)) as <-.
  { unfold displayed. by destruct (displayedContent line) as [[|]|]. }
  destruct (displayed line) as [shown|]; [|by destruct (type line)].
  intros Hnode. exists shown. split; [done|].
  destruct (type line), shown as [s|segments];
    cbv beta zeta iota delta [renderContent] in Hnode; injection Hnode as <-;
    cbn [textContent flat_map renderPlainContent contentText];
    by rewrite ?join_empty, ?renderFormattedOutput_text, ?formatToString_concat, ?app_nil_r.
Qed.

(** X16: [TerminalOutput] throws exactly on a line whose
    [displayedContent] is the empty string and whose [content] is
    [undefined], whatever its kind. The output line that
    [handleCommand] appends for a result without a [content] field is
    such a line, under every id and kind. *)
Theorem rendering_fails_on_undefined_content (line : TerminalLine) :
  ((exists thrown, TerminalOutput line = Throw thrown)
   <-> displayedContent line = Text [] /\ content line = None)
  /\ forall now ty, exists thrown, TerminalOutput (outputLine now ty None) = Throw thrown.
Proof.
  split.
  - unfold TerminalOutput, displayed. split.
    + intros [thrown Hthrow].
      destruct (displayedContent line) as [[|u s]|segments], (content line) as [[|]|],
        (type line); done.
    + intros [-> ->]. destruct (type line); by eexists.
  - intros now ty. destruct ty; by eexists.
Qed.

(** ** formatting.ts *)

(** X17: [combine] neither adds nor drops anything: the text of a
    combination is the texts of its parts one after the other, and it
    has as many segments as its parts together (an empty part
    contributes nothing). *)
Theorem combine_concatenates_text (outputs : list FormattedOutput) :
  formatToString (combine outputs) = concat (map formatToString outputs)
  /\ length (combine outputs) = sum_list (map length outputs).
Proof.
  unfold combine. split.
  - induction outputs as [|output rest IH]; [done|].
    cbn [concat map]. by rewrite formatToString_app, IH.
  - induction outputs as [|output rest IH]; [done|].
    cbn [concat map sum_list]. by rewrite length_app, IH.
Qed.

(** X18: [createListItem], for a number the engine prints in full (an
    integer below 2^53), treats an empty string like an absent
    argument. The item carries a link (a segment with a [url]) exactly
    when [link] is a non-empty string, and then one, holding that
    string; its text is the numbered title line, then the description
    line only for a non-empty description, then the link line only for
    a non-empty link. *)
Theorem createListItem_drops_empty_optionals (number : N) (title : jsstring)
    (description link : option jsstring) :
  number < 2 ^ 53 ->
  omap url (createListItem number title description link)
  = (if truthy link then [default [] link] else [])
  /\ formatToString (createListItem number title description link)
     = js "\n" ++ js "[" ++ numberToString number ++ js "] " ++ title ++ js "\n"
       ++ (if truthy description then js "    " ++ default [] description ++ js "\n" else [])
       ++ (if truthy link then js "    🔗 " ++ default [] link ++ js "\n" else []).
Proof.
  intros _. unfold createListItem. split.
  - destruct (truthy description), (truthy link) eqn:Hlink; try done.
    + destruct link as [[|]|]; done.
    + destruct link as [[|]|]; done.
  - rewrite !formatToString_app.
    destruct (truthy description), (truthy link); unfold formatToString;
      cbn [flat_map text text.primary text.default text.muted];
      by rewrite ?app_nil_r, <- ?app_assoc.
Qed.

(** ** Colour tags *)

Lemma startsWith_prefix (s p : jsstring) : startsWith s p = true <-> p `prefix_of` s.
Proof.
  revert s. induction p as [|a p IH]; intros s.
  - split; [intros _; apply prefix_nil|done].
  - destruct s as [|u s]; cbn [startsWith].
    + split; [done|]. intros [k Hk]. done.
    + rewrite andb_true_iff, N.eqb_eq, IH. split.
      * intros [-> Hp]. by apply prefix_cons.
      * intros [k [= -> ->]]. split; [done|]. by exists k.
Qed.

Lemma includes_drop (s needle : jsstring) (k : nat) :
  includes s needle = false -> startsWith (drop k s) needle = false.
Proof.
  revert k. induction s as [|u s IH]; intros k Hnone.
  - rewrite drop_nil. cbn [includes] in Hnone. by apply orb_false_iff in Hnone as [-> _].
  - cbn [includes] in Hnone. apply orb_false_iff in Hnone as [Hhead Htail].
    destruct k as [|k]; [done|]. cbn [drop]. by apply IH.
Qed.

Lemma lazyUntil_unfold (close s : jsstring) :
  Tags.lazyUntil close s
  = if startsWith s close then Some []
    else match s with
         | [] => None
         | u :: s' =>
             if Tags.isLineTerminator u then None else cons u <$> Tags.lazyUntil close s'
         end.
Proof. by destruct s. Qed.

Lemma lazyUntil_app (close t rest : jsstring) :
  Forall (fun u => Tags.isLineTerminator u = false) t ->
  (forall k, (k < length t)%nat -> startsWith (drop k t ++ close ++ rest) close = false) ->
  Tags.lazyUntil close (t ++ close ++ rest) = Some t.
Proof.
  induction 1 as [|u t Hu _ IH]; intros Hearly.
  - cbn [app]. rewrite lazyUntil_unfold, startsWith_app. done.
  - rewrite lazyUntil_unfold.
    pose proof (Hearly 0%nat ltac:(cbn [length]; lia)) as Hhere. cbn [drop] in Hhere.
    rewrite Hhere. cbn [app]. rewrite Hu, IH; [done|].
    intros k Hk. apply (Hearly (S k)). cbn [length]. lia.
Qed.

Lemma no_early_close (close t rest : jsstring) :
  unbordered close = true ->
  includes t close = false ->
  forall k, (k < length t)%nat -> startsWith (drop k t ++ close ++ rest) close = false.
Proof.
  intros Hunbordered Hnone k Hk.
  apply not_true_is_false. intros Hstarts%startsWith_prefix.
  pose proof (includes_drop t close k Hnone) as Hinside.
  assert (length (drop k t) <> 0)%nat as Hsome by (rewrite length_drop; lia).
  set (s := drop k t) in *. clearbody s.
  destruct (decide (length close <= length s)%nat) as [Hlong|Hshort].
  - apply not_true_iff_false in Hinside. apply Hinside, startsWith_prefix.
    destruct Hstarts as [q Hq].
    apply (f_equal (take (length close))) in Hq.
    rewrite take_app_le in Hq by done. rewrite take_app_length in Hq.
    exists (drop (length close) s).
    rewrite <- (take_drop (length close) s) at 1. by rewrite Hq.
  - destruct Hstarts as [q Hq].
    assert (s = take (length s) close) as Hs.
    { apply (f_equal (take (length s))) in Hq.
      rewrite take_app_length in Hq. rewrite take_app_le in Hq by lia. done. }
    assert (startsWith (take (length s) close ++ close) close = true) as Hborder.
    { apply startsWith_prefix. rewrite <- Hs.
      apply (f_equal (take (length s + length close))) in Hq.
      rewrite (app_assoc s close rest) in Hq.
      rewrite (take_app_length' (s ++ close)) in Hq by (rewrite length_app; lia).
      rewrite Hq, take_app_ge by lia. by eexists. }
    unfold unbordered in Hunbordered. rewrite forallb_forall in Hunbordered.
    specialize (Hunbordered (length s)). rewrite Hborder in Hunbordered.
    assert (In (length s) (seq 1 (length close - 1))) as Hin by (apply in_seq; lia).
    by specialize (Hunbordered Hin).
Qed.

Lemma matchTag_head (open close t rest : jsstring) :
  unbordered close = true ->
  Forall (fun u => Tags.isLineTerminator u = false) t ->
  includes t close = false ->
  Tags.matchTag open close (open ++ t ++ close ++ rest) = Some t.
Proof.
  intros Hunbordered Hline Hnone.
  assert (Tags.matchTag open close (open ++ t ++ close ++ rest)
          = match (if startsWith (open ++ t ++ close ++ rest) open
                   then Tags.lazyUntil close (drop (length open) (open ++ t ++ close ++ rest))
                   else None) with
            | Some captured => Some captured
            | None =>
                match open ++ t ++ close ++ rest with
                | [] => None
                | _ :: more => Tags.matchTag open close more
                end
            end) as -> by by destruct (open ++ t ++ close ++ rest).
  rewrite startsWith_app, drop_app_length.
  by rewrite (lazyUntil_app close t rest Hline (no_early_close close t rest Hunbordered Hnone)).
Qed.

Lemma splitOn_whole (sep : N) (s : jsstring) :
  sep ∉ s -> Tags.splitOn sep s = (s, []).
Proof.
  induction s as [|u s IH]; intros Hfree; [done|].
  cbn [Tags.splitOn]. rewrite IH by (intros ?; apply Hfree; by right).
  destruct (N.eqb_spec u sep) as [->|_]; [|done].
  exfalso. apply Hfree. by left.
Qed.

Lemma line_feed_is_terminator (t : jsstring) :
  Forall (fun u => Tags.isLineTerminator u = false) t -> 0x0A ∉ t.
Proof.
  intros Hline Hin. rewrite Forall_forall in Hline. by specialize (Hline _ Hin).
Qed.

Lemma free_of (u : N) (s : jsstring) :
  forallb (fun v => negb (v =? u)) s = true -> u ∉ s.
Proof.
  intros Hfree Hin%list_elem_of_In. rewrite forallb_forall in Hfree.
  specialize (Hfree _ Hin). by rewrite N.eqb_refl in Hfree.
Qed.

Lemma terminator_free (s : jsstring) :
  forallb (fun u => negb (Tags.isLineTerminator u)) s = true ->
  Forall (fun u => Tags.isLineTerminator u = false) s.
Proof.
  rewrite forallb_forall. intros Hfree. apply Forall_forall.
  intros u Hu%list_elem_of_In. by apply negb_true_iff, Hfree.
Qed.

Lemma title_line (t more : jsstring) :
  Forall (fun u => Tags.isLineTerminator u = false) t ->
  includes t (js "[/CYAN]") = false ->
  0x0A ∉ more ->
  Tags.parseColoredOutput (Tags.format.title t ++ more)
  = [ {| Tags.text := t; Tags.color := Some Tags.cyan |} ].
Proof.
  intros Hline Hnone Hmore.
  unfold Tags.parseColoredOutput, Tags.format.title.
  rewrite <- !app_assoc.
  rewrite splitOn_whole.
  - cbn [map]. unfold Tags.parseLine.
    rewrite matchTag_head; [done| by vm_compute |done..].
  - rewrite !not_elem_of_app. split; [by apply free_of|].
    split; [by apply line_feed_is_terminator|].
    split; [|done]. by apply free_of.
Qed.

(** X19: the colour tags round-trip, and the first cyan tag of a line
    wins. For a text without line terminators that does not contain the
    closing tag, [parseColoredOutput] reads [format.title] back as one
    cyan line with exactly that text; and whatever follows the closing
    tag on the same line, other tags included, is dropped. *)
Theorem first_cyan_tag_wins (t rest : jsstring) :
  Forall (fun u => Tags.isLineTerminator u = false) t ->
  includes t (js "[/CYAN]") = false ->
  0x0A ∉ rest ->
  Tags.parseColoredOutput (Tags.format.title t)
  = [ {| Tags.text := t; Tags.color := Some Tags.cyan |} ]
  /\ Tags.parseColoredOutput (Tags.format.title t ++ rest)
     = [ {| Tags.text := t; Tags.color := Some Tags.cyan |} ].
Proof.
  intros Hline Hnone Hrest. split; [|by apply title_line].
  rewrite <- (app_nil_r (Tags.format.title t)). apply title_line; [done..|]. apply not_elem_of_nil.
Qed.

(** X20: a social entry loses its link. [createSocialEntry] puts the
    platform, as a title, and the url, as a link, on one line;
    [parseColoredOutput] returns the padded platform name in cyan and
    nothing of the url. *)
Theorem social_entry_loses_its_link (platform url : jsstring) :
  Forall (fun u => Tags.isLineTerminator u = false) platform ->
  includes (padEnd platform 12) (js "[/CYAN]") = false ->
  0x0A ∉ url ->
  Tags.parseColoredOutput (Tags.createSocialEntry platform url)
  = [ {| Tags.text := padEnd platform 12; Tags.color := Some Tags.cyan |} ].
Proof.
  intros Hline Hnone Hurl. unfold Tags.createSocialEntry. cbn [join].
  apply title_line; [|done|].
  - unfold padEnd. apply Forall_app. split; [done|].
    apply Forall_forall. intros u [-> _]%elem_of_replicate. done.
  - unfold Tags.format.link. rewrite !not_elem_of_app.
    split; [by apply free_of|].
    split; [by apply free_of|].
    split; [done|]. by apply free_of.
Qed.

(** ** The first renderer: one line per line feed *)














Section FirstRenderer.
Variables (lineId : jsstring) (ty : LineType.t).


End FirstRenderer.




(** ** Closed instances *)

(** C2, the claim as stated fails: typed [sudo Foo], the handler is
    handed [foo], and says so in its reply. *)
Lemma arguments_lose_their_case :
  snd (splitSpace (toLowerCase (trim (js "sudo Foo")))) = [js "foo"]
  /\ [js "foo"] <> [js "Foo"]
  /\ fst (getCommandOutput (js "sudo Foo") counting)
     = Normal (Output
         {| Commands.content := Segments
              [ text.primary (js "[sudo] ") true;
                text.default (js "password for user: ") false;
                text.muted (js "***************\n\n") false;
                text.error (js "sudo: foo: command not found\n") false ];
            Commands.error := false |}).
Proof. split; [run|]. split; [differ|run]. Qed.

Lemma arguments_are_lowercased_pieces_witness :
  join (js " ") [js "sudo"; js "foo"; js "bar"] = toLowerCase (trim (js "  SUDO Foo bar "))
  /\ Forall (fun token : jsstring => 0x20 ∉ token) [js "sudo"; js "foo"; js "bar"]
  /\ getCommandOutputWith commands (js "  SUDO Foo bar ") counting
     = (Normal (Output
          {| Commands.content := Segments
               [ text.primary (js "[sudo] ") true;
                 text.default (js "password for user: ") false;
                 text.muted (js "***************\n\n") false;
                 text.error (js "sudo: foo: command not found\n") false ];
             Commands.error := false |}), counting).
Proof.
  apply (arguments_are_lowercased_pieces commands (js "  SUDO Foo bar ") counting
           (js "sudo") [js "foo"; js "bar"] sudo);
    [run | differ | differ | reflexivity | run].
Defined.

Lemma sentinels_short_circuit_witness :
  getCommandOutputWith (<[js "clear" := failing (js "boom")]> commands)
    (js "  CLEAR the screen ") counting
  = (Normal (Output {| Commands.content := Text (js "CLEAR"); Commands.error := false |}), counting).
Proof.
  instance_of
    (sentinels_short_circuit (<[js "clear" := failing (js "boom")]> commands)
       (js "  CLEAR the screen ") counting).
  left. reflexivity.
Defined.

Lemma dispatch_never_throws_witness :
  getCommandOutputWith commands (js "__proto__") counting
  = (Normal (Output
       {| Commands.content := Segments
            [ text.error (js "Error executing command: ") false;
              text.error (js "commands[command] is not a function") false;
              text.default (js "\n") false ];
          Commands.error := true |}), counting).
Proof.
  apply (proj2 (proj2 (dispatch_never_throws commands (js "__proto__") counting))
           (js "__proto__") []
           (fun _ => Throw (ErrorObject (js "commands[command] is not a function")))
           (ErrorObject (js "commands[command] is not a function")));
    [run | differ | differ | reflexivity | reflexivity | reflexivity].
Defined.

(** C8, the claim as stated fails: typed [Foo], the reply names [foo]
    and holds no [Foo]. *)
Lemma unknown_token_is_not_echoed_as_typed :
  exists segments,
    getCommandOutput (js "Foo") counting
    = (Normal (Output {| Commands.content := Segments segments; Commands.error := true |}), counting)
    /\ formatToString segments
       = js "Command not found: foo. Type help for available commands.\n"
    /\ includes (formatToString segments) (js "Foo") = false.
Proof. eexists. split; [run|]. split; run. Qed.

Lemma unknown_command_is_reported_witness :
  exists segments,
    getCommandOutput (js "  Nope 1 2") counting
    = (Normal (Output {| Commands.content := Segments segments; Commands.error := true |}), counting)
    /\ formatToString segments
       = js "Command not found: " ++ js "nope" ++ js ". Type help for available commands.\n"
    /\ includes (formatToString segments) (js "nope") = true
    /\ includes (formatToString segments) (js "help") = true.
Proof.
  instance_of (unknown_command_is_reported (js "  Nope 1 2") counting);
    first [ differ | reflexivity ].
Defined.

Example js_link_glyph : js "🔗" = [0xD83D; 0xDD17].
Proof. run. Qed.

Example js_bullet_glyph : js "▸\n" = [0x25B8; 0x0A].
Proof. run. Qed.

(** C4, the claim as stated fails: two resolutions of [sudo] in one
    session, the second on the draws the first left, differ. *)
Lemma sudo_update_differs_between_runs :
  fst (getCommandOutput (js "sudo") counting)
  <> fst (getCommandOutput (js "sudo") (snd (getCommandOutput (js "sudo") counting))).
Proof. differ. Qed.

Lemma resolution_is_deterministic_without_random_witness :
  fst (getCommandOutput (js "sudo rm -rf") counting)
  = fst (getCommandOutput (js "sudo rm -rf") (fun _ => 7))
  /\ snd (getCommandOutput (js "sudo rm -rf") counting) = counting.
Proof.
  apply (resolution_is_deterministic_without_random (js "sudo rm -rf") counting (fun _ => 7)).
  intros _. run.
Defined.

(** C3, the claim as stated fails: the link glyph of a project entry is
    one code point stored as a surrogate pair, and the tick that reaches
    it shows its leading half alone. *)
Lemma surrogate_pair_is_split_by_a_tick :
  wholeCodePoints (js "    🔗 ") = true
  /\ snapshots (Segments [ text.muted (js "    🔗 ") false ]) !! 4%nat
     = Some (Segments [ text.muted (js "    " ++ [0xD83D]) false ])
  /\ wholeCodePoints (js "    " ++ [0xD83D]) = false
  /\ snapshots (Text (js "🔗")) !! 0%nat = Some (Text [0xD83D]).
Proof. repeat split; run. Qed.

Lemma reveal_advances_by_code_unit_witness :
  contentText (Text (js "a🔗")) = take 3 (contentText (Text (js "a🔗")))
  /\ exists u, contentText (Text (js "a🔗")) !! 2%nat = Some u
       /\ wholeCodePoints (contentText (Text (js "a🔗"))) = negb (isHighSurrogate u).
Proof.
  apply (reveal_advances_by_code_unit (Text (js "a🔗")) (Text (js "a🔗")) 2); run.
Defined.

Lemma busy_or_blank_submit_is_noop_witness :
  handleCommand (js "help") (revealing sampleReply) = (Normal tt, revealing sampleReply)
  /\ length (lines (session (snd (handleCommand (js "help") (revealing sampleReply)))))
     = length (lines (session (revealing sampleReply)))
  /\ history (session (snd (handleCommand (js "help") (revealing sampleReply))))
     = history (session (revealing sampleReply))
  /\ painted (snd (handleCommand (js "help") (revealing sampleReply)))
     = painted (revealing sampleReply).
Proof.
  apply (busy_or_blank_submit_is_noop (js "help") (revealing sampleReply)).
  left. reflexivity.
Defined.

Lemma sudo_is_never_an_error_witness :
  fst (handleCommand (js "sudo rm -rf /") mounted) = Normal tt
  /\ map type (lines (session (snd (handleCommand (js "sudo rm -rf /") mounted))))
     = map type (lines (session mounted)) ++ [LineType.command; LineType.output].
Proof.
  apply (proj2 (proj2 (sudo_is_never_an_error [] counting (js "sudo rm -rf /") mounted)));
    [reflexivity | differ | run].
Defined.

Lemma dispatched_content_is_revealed_exactly_witness :
  exists output,
    getCommandOutput (js "projects") counting = (Normal (Output output), counting)
    /\ last (snapshots (Commands.content output)) = Some (Commands.content output).
Proof.
  eexists. split; [run|].
  apply (dispatched_content_is_revealed_exactly (js "projects") counting counting);
    [run | vm_compute; discriminate].
Defined.

(** ** Closed instances of the further properties *)

Lemma submit_completes_and_releases_witness :
  exists w' more,
    handleCommand (js "help") mounted = (Normal tt, w')
    /\ isProcessing (session w') = false
    /\ input (session w') = []
    /\ historyIndex (session w') = (-1)%Z
    /\ painted w'
       = painted mounted
         ++ (lines (session mounted) ++ [echoLine (js "help") (clock mounted 0%nat)]) :: more.
Proof.
  apply (submit_completes_and_releases (js "help") mounted); [reflexivity | differ].
Defined.

Lemma clear_resets_the_session_witness :
  fst (handleCommand (js " Clear now") browsing) = Normal tt
  /\ session (snd (handleCommand (js " Clear now") browsing)) = initialSession
  /\ random (snd (handleCommand (js " Clear now") browsing)) = random browsing
  /\ reloads (snd (handleCommand (js " Clear now") browsing)) = reloads browsing.
Proof.
  apply (clear_resets_the_session (js " Clear now") browsing); [reflexivity | differ | run].
Defined.

Lemma reload_requests_one_reload_witness :
  fst (handleCommand (js "RELOAD") browsing) = Normal tt
  /\ reloads (snd (handleCommand (js "RELOAD") browsing)) = S (reloads browsing)
  /\ isProcessing (session (snd (handleCommand (js "RELOAD") browsing))) = false
  /\ lines (session (snd (handleCommand (js "RELOAD") browsing)))
     = lines (session browsing) ++ [echoLine (js "RELOAD") (clock browsing 0%nat)]
  /\ history (session (snd (handleCommand (js "RELOAD") browsing)))
     = history (session browsing) ++ [js "RELOAD"]
  /\ random (snd (handleCommand (js "RELOAD") browsing)) = random browsing.
Proof.
  apply (reload_requests_one_reload (js "RELOAD") browsing); [reflexivity | differ | run].
Defined.

Lemma accepted_submit_shows_the_reply_witness :
  exists output,
    getCommandOutput (js "Email") (random mounted) = (Normal (Output output), counting)
    /\ (fst (handleCommand (js "Email") mounted) = Normal tt
        /\ lines (session (snd (handleCommand (js "Email") mounted)))
           = lines (session mounted)
             ++ [ echoLine (js "Email") (clock mounted 0%nat);
                  {| id := js "output-" ++ numberToString (clock mounted 1%nat);
                     type := if Commands.error output then LineType.error
                             else LineType.output;
                     content := Some (Commands.content output);
                     displayedContent := Commands.content output;
                     isComplete := true |} ]
        /\ history (session (snd (handleCommand (js "Email") mounted)))
           = history (session mounted) ++ [js "Email"]).
Proof.
  eexists. split; [run|].
  apply (accepted_submit_shows_the_reply (js "Email") mounted _ counting);
    [reflexivity | differ | differ | differ | run | repeat constructor; differ].
Defined.

Lemma foreign_result_is_caught_witness :
  fst (handleCommand (js "constructor") mounted) = Normal tt
  /\ isProcessing (session (snd (handleCommand (js "constructor") mounted))) = false
  /\ lines (session (snd (handleCommand (js "constructor") mounted)))
     = lines (session mounted)
       ++ [ echoLine (js "constructor") (clock mounted 0%nat);
            outputLine (clock mounted 1%nat) LineType.output None;
            failureLine (clock mounted 2%nat) ].
Proof.
  apply (foreign_result_is_caught (js "constructor") mounted Fieldless counting);
    [reflexivity | differ | run].
Defined.

Lemma history_cursor_stays_in_bounds_witness :
  exists w',
    handleKeyDown (js "ArrowUp") browsing = Some (Normal tt, w')
    /\ cursorInBounds (session w')
    /\ (js "ArrowUp" <> js "Enter" ->
        lines (session w') = lines (session browsing)
        /\ history (session w') = history (session browsing)
        /\ isProcessing (session w') = isProcessing (session browsing)
        /\ painted w' = painted browsing).
Proof.
  apply (history_cursor_stays_in_bounds (js "ArrowUp") browsing).
  unfold cursorInBounds, browsing. cbn [session historyIndex history length]. lia.
Defined.

Lemma arrow_up_recalls_most_recent_first_witness :
  pressAll (replicate 3 (js "ArrowUp")) browsing
  = Some (recalled (Z.of_nat 2) (js "help") browsing)
  /\ (3%nat = length (history (session browsing)) ->
      handleKeyDown (js "ArrowUp") (recalled (Z.of_nat 2) (js "help") browsing)
      = Some (Normal tt, recalled (Z.of_nat 2) (js "help") browsing)).
Proof.
  apply (arrow_up_recalls_most_recent_first 2 browsing (js "help")); [reflexivity | run].
Defined.

Lemma arrow_down_undoes_arrow_up_witness :
  pressAll [js "ArrowUp"; js "ArrowDown"] browsing = Some (recalled (-1) [] browsing).
Proof.
  apply (arrow_down_undoes_arrow_up browsing 0 (js "sudo")); [reflexivity | run].
Defined.


Lemma reveal_of_absent_line_changes_nothing_witness :
  renderOutputLine (js "output-8") (Some sampleReply) LineType.output (revealing sampleReply)
  = (Normal tt,
     painting (revealing sampleReply)
       (replicate (S (length (contentText sampleReply)))
          (lines (session (revealing sampleReply)))))
  /\ session (snd (renderOutputLine (js "output-8") (Some sampleReply) LineType.output
                     (revealing sampleReply)))
     = session (revealing sampleReply).
Proof.
  apply (reveal_of_absent_line_changes_nothing (js "output-8") sampleReply LineType.output
           (revealing sampleReply)).
  repeat constructor; differ.
Defined.

Lemma reveal_touches_only_its_line_witness :
  exists frames,
    renderOutputLine (js "output-7") (Some sampleReply) LineType.output (revealing sampleReply)
    = (Normal tt, painting (revealing sampleReply) frames)
    /\ Forall (fun frame =>
                 exists shown,
                   frame = <[2%nat := shown]> (lines (session (revealing sampleReply)))
                   /\ id shown = id (pendingLine sampleReply)
                   /\ type shown = type (pendingLine sampleReply)
                   /\ content shown = content (pendingLine sampleReply))
              frames.
Proof.
  apply (reveal_touches_only_its_line (js "output-7") sampleReply LineType.output
           (revealing sampleReply) 2 (pendingLine sampleReply)).
  run.
Defined.

Lemma error_flag_marks_unregistered_names_witness :
  exists output,
    getCommandOutput (js "nope") counting = (Normal (Output output), counting)
    /\ ((Commands.error output = true
         <-> commands !! fst (splitSpace (toLowerCase (trim (js "nope")))) = None)
        /\ exists segments, Commands.content output = Segments segments).
Proof.
  eexists. split; [run|].
  apply (error_flag_marks_unregistered_names (js "nope") counting counting);
    [differ | differ | run].
Defined.

Lemma sudo_update_lists_five_to_twelve_packages_witness :
  exists (n : nat) (segments : FormattedOutput) (rng' : Random),
    sudo [js "apt"; js "upgrade"] counting
    = (Normal {| Commands.content := Segments segments; Commands.error := false |}, rng')
    /\ (5 <= n <= 12)%nat
    /\ length segments = (6 + 6 * n + 14)%nat
    /\ (forall j, (j < n)%nat ->
          segments !! (6 + 6 * j)%nat
          = Some (text.default (js "Get:" ++ numberToString (N.of_nat j + 1) ++ js " ") false)
          /\ exists pkg, pkg ∈ packages
               /\ segments !! (6 + 6 * j + 2)%nat = Some (text.default (pkg ++ js " ") false))
    /\ forall k, rng' k = counting (k + 8 * n + 3)%nat.
Proof.
  apply (sudo_update_lists_five_to_twelve_packages [js "apt"; js "upgrade"] counting).
  run.
Defined.

Lemma rendering_shows_the_displayed_text_witness :
  exists node,
    TerminalOutput (pendingLine sampleReply) = Normal node
    /\ exists shown,
         (if decide (displayedContent (pendingLine sampleReply) = Text [])
          then content (pendingLine sampleReply)
          else Some (displayedContent (pendingLine sampleReply))) = Some shown
         /\ textContent node
            = match type (pendingLine sampleReply) with
              | LineType.command => js "$"
              | _ => []
              end ++ contentText shown.
Proof.
  eexists. split; [run|].
  apply (rendering_shows_the_displayed_text (pendingLine sampleReply)). run.
Defined.

Lemma first_cyan_tag_wins_witness :
  Tags.parseColoredOutput (Tags.format.title (js "Skills:"))
  = [ {| Tags.text := js "Skills:"; Tags.color := Some Tags.cyan |} ]
  /\ Tags.parseColoredOutput
       (Tags.format.title (js "Skills:") ++ js " [WHITE]React, TypeScript[/WHITE]")
     = [ {| Tags.text := js "Skills:"; Tags.color := Some Tags.cyan |} ].
Proof.
  apply (first_cyan_tag_wins (js "Skills:") (js " [WHITE]React, TypeScript[/WHITE]"));
    [apply terminator_free; run | run | apply free_of; run].
Defined.

Lemma social_entry_loses_its_link_witness :
  Tags.parseColoredOutput (Tags.createSocialEntry (js "GitHub:") (js "https://github.com/vncsmnl"))
  = [ {| Tags.text := padEnd (js "GitHub:") 12; Tags.color := Some Tags.cyan |} ].
Proof.
  apply (social_entry_loses_its_link (js "GitHub:") (js "https://github.com/vncsmnl"));
    [apply terminator_free; run | run | apply free_of; run].
Defined.

Lemma createListItem_drops_empty_optionals_witness :
  omap url (createListItem 3 (js "msa_app") (Some []) (Some (js "https://github.com/vncsmnl/msa_app")))
  = (if truthy (Some (js "https://github.com/vncsmnl/msa_app"))
     then [default [] (Some (js "https://github.com/vncsmnl/msa_app"))] else [])
  /\ formatToString
       (createListItem 3 (js "msa_app") (Some []) (Some (js "https://github.com/vncsmnl/msa_app")))
     = js "\n" ++ js "[" ++ numberToString 3 ++ js "] " ++ js "msa_app" ++ js "\n"
       ++ (if truthy (Some []) then js "    " ++ default [] (Some []) ++ js "\n" else [])
       ++ (if truthy (Some (js "https://github.com/vncsmnl/msa_app"))
           then js "    🔗 " ++ default [] (Some (js "https://github.com/vncsmnl/msa_app"))
                ++ js "\n"
           else []).
Proof.
  apply (createListItem_drops_empty_optionals 3 (js "msa_app") (Some [])
           (Some (js "https://github.com/vncsmnl/msa_app"))).
  reflexivity.
Defined.


